(** * compath_utils.manager: the abstract ComPath manager

    A shallow embedding of [src/compath_utils/manager.py] and the
    properties of its queries.  Python dictionaries are finite maps
    ([gmap]), Python sets are finite sets ([gset]), a [Counter] is an
    insertion-ordered association list, and an operation that can raise
    returns in the [result] monad. *)

From Stdlib Require Import ZArith Ascii String.
From stdpp Require Import gmap strings list fin_maps.

Open Scope string_scope.

Set Warnings "-clear-no-such-hyp".

(** ** Exceptions and the result monad *)

Inductive exn : Type :=
| CompathManagerPathwayModelError (msg : string)
| CompathManagerProteinModelError (msg : string)
| AttributeError (msg : string)
| MultipleResultsFound
| BackendError (msg : string).

Definition result (A : Type) : Type := exn + A.

(** [raise e] is [inl e], [ret a] is [inr a]. *)
Abbreviation raise := inl (only parsing).
Abbreviation ret := inr (only parsing).

Definition bind {A B : Type} (m : result A) (k : A → result B) : result B :=
  match m with
  | inl e => inl e
  | inr a => k a
  end.

Notation "x ←! m ; k" := (bind m (λ x, k))
  (at level 20, m at level 100, k at level 200, right associativity,
   format "x  ←!  m ;  '/' k").

#[global] Instance exn_eq_dec : EqDecision exn.
Proof. solve_decision. Defined.

(** ** The entity rows *)

(** Modelled from the spec: the Protein entity type is bound by the
    concrete managers and is not part of this module.  A protein row has
    a surrogate key, an HGNC gene symbol, and the accessor
    [get_pathways_ids] giving the identifiers of the pathways it belongs
    to (listed in the order in which the returned collection iterates). *)
Record Protein : Type := mkProtein {
  protein_pk : nat;
  hgnc_symbol : string;
  get_pathways_ids : list string
}.

(** Modelled from the spec: the Pathway entity type is bound by the
    concrete managers and is not part of this module.  A pathway row has
    a surrogate key, a backend-specific identifier, a display name and
    the relationship [proteins] yielding its member protein rows. *)
Record Pathway : Type := mkPathway {
  pathway_pk : nat;
  identifier : string;
  name : string;
  proteins : list Protein
}.

#[global] Instance Protein_eq_dec : EqDecision Protein.
Proof. solve_decision. Defined.

#[global] Instance Pathway_eq_dec : EqDecision Pathway.
Proof. solve_decision. Defined.

(** Modelled from the spec: [Pathway.get_gene_set] is defined with the
    Pathway entity type; it is the set of all HGNC symbols in the
    pathway. *)
Definition get_gene_set (pathway : Pathway) : gset string :=
  list_to_set (hgnc_symbol <$> proteins pathway).

(** ** The session *)

Record Session : Type := mkSession {
  pathway_table : list Pathway;
  protein_table : list Protein
}.

(** A model class selects its table in a session;
    [session.query(model).all()] lists the rows in retrieval order. *)
Definition Model (Row : Type) : Type := Session → list Row.

Definition session_query {Row : Type} (session : Session) (model : Model Row) : list Row :=
  model session.

(** [Query.one_or_none()] *)
Definition one_or_none {Row : Type} (rows : list Row) : result (option Row) :=
  match rows with
  | [] => ret None
  | [row] => ret (Some row)
  | _ :: _ :: _ => raise MultipleResultsFound
  end.

(** ** Substring test on strings *)

Fixpoint is_substring (q s : string) : bool :=
  String.prefix q s ||
  match s with
  | EmptyString => false
  | String _ s' => is_substring q s'
  end.

(** ASCII case folding. *)
Definition lower_ascii (c : ascii) : ascii :=
  let n := nat_of_ascii c in
  if bool_decide (65 ≤ n ∧ n ≤ 90)%nat then ascii_of_nat (n + 32) else c.

Fixpoint lower (s : string) : string :=
  match s with
  | EmptyString => EmptyString
  | String c s' => String (lower_ascii c) (lower s')
  end.

(** Modelled from the spec: the backing store's query facility.  The
    name filter [column.contains(query)] is a substring match on the
    name whose case sensitivity the backend defines, and the row limit
    [Query.limit(n)] keeps that many leading rows for a non-negative
    [n]; what a negative limit does is left to the backend. *)
Class Backend : Type := {
  case_sensitive : bool;
  q_limit : Z → list Pathway → result (list Pathway);
  q_limit_nonneg : ∀ n rows,
    (0 ≤ n)%Z → q_limit n rows = ret (take (Z.to_nat n) rows)
}.

(** The form in which the backend compares names. *)
Definition fold_case `{Backend} (s : string) : string :=
  if case_sensitive then s else lower s.

(** [column.contains(query)] *)
Definition contains `{Backend} (q s : string) : bool :=
  is_substring (fold_case q) (fold_case s).

(** ** Counter *)

(** [collections.Counter]: a dictionary in insertion order. *)
Definition Counter : Type := list (string * nat).

(** [counter[key] += 1] *)
Fixpoint counter_incr (key : string) (counter : Counter) : Counter :=
  match counter with
  | [] => [(key, 1)]
  | (k, n) :: counter' =>
      if decide (key = k) then (k, S n) :: counter'
      else (k, n) :: counter_incr key counter'
  end.

(** [counter.update(iterable)] *)
Definition counter_update (counter : Counter) (elems : list string) : Counter :=
  foldl (λ c key, counter_incr key c) counter elems.

(** [Counter(iterable)] *)
Definition counter_of (elems : list string) : Counter := counter_update [] elems.

(** [counter[key]]: a missing key counts zero. *)
Fixpoint counter_get (key : string) (counter : Counter) : nat :=
  match counter with
  | [] => 0
  | (k, n) :: counter' =>
      if decide (key = k) then n else counter_get key counter'
  end.

(** ** The manager *)

(** The class-level bindings a manager class declares. *)
Record ManagerClass : Type := mkManagerClass {
  pathway_model : option (Model Pathway);
  pathway_model_identifier_column : option (Pathway → string);
  protein_model : option (Model Protein)
}.

(** A constructed manager. *)
Record CompathManager : Type := mkCompathManager {
  self_pathway_model : Model Pathway;
  self_pathway_model_identifier_column : option (Pathway → string);
  self_protein_model : Model Protein;
  session : Session
}.

(** [CompathManager.__init__]: the pathway model is checked first, then
    the protein model; the check of the identifier column is commented
    out in the source.  The parent constructor binds the session. *)
Definition __init__ (cls : ManagerClass) (connection : Session) : result CompathManager :=
  match pathway_model cls with
  | None =>
      raise (CompathManagerPathwayModelError
               "did not set class-level variable pathway_model")
  | Some pathway_model =>
      match protein_model cls with
      | None =>
          raise (CompathManagerProteinModelError
                   "did not set class-level variable protein_model")
      | Some protein_model =>
          ret {| self_pathway_model := pathway_model;
                 self_pathway_model_identifier_column :=
                   pathway_model_identifier_column cls;
                 self_protein_model := protein_model;
                 session := connection |}
      end
  end.

(** The enrichment record built for one pathway. *)
Record EnrichmentRecord : Type := mkEnrichmentRecord {
  pathway_id : string;
  pathway_name : string;
  mapped_proteins : nat;
  pathway_size : nat;
  pathway_gene_set : gset string
}.

Section Manager.

Variable self : CompathManager.

(** [is_populated]: the pathway table has at least one row. *)
Definition is_populated : bool :=
  bool_decide (0 < length (session_query (session self) (self_pathway_model self))).

(** [_query_proteins_in_hgnc_list]: the protein rows whose gene symbol
    is in the gene set, in retrieval order.  The gene set is taken to be
    one the backend accepts as the parameters of one [IN] clause; a
    bound on their number is not part of this model. *)
Definition _query_proteins_in_hgnc_list (gene_set : list string) : list Protein :=
  filter (λ protein, hgnc_symbol protein ∈ gene_set)
         (session_query (session self) (self_protein_model self)).

(** The identifier filter; with no identifier column bound the
    comparison [None == pathway_id] is false for every row. *)
Definition _standard_pathway_identifier_filter
    (pathway_id : string) (pathway : Pathway) : bool :=
  match self_pathway_model_identifier_column self with
  | Some column => bool_decide (column pathway = pathway_id)
  | None => false
  end.

(** [get_pathway_by_id]: the row passing the identifier filter, [None]
    when there is none; several such rows raise. *)
Definition get_pathway_by_id (pathway_id : string) : result (option Pathway) :=
  one_or_none
    (filter (λ pathway, _standard_pathway_identifier_filter pathway_id pathway = true)
            (session_query (session self) (self_pathway_model self))).

(** [get_pathway_by_name]: the first row of that name, if any. *)
Definition get_pathway_by_name (pathway_name : string) : option Pathway :=
  let pathways :=
    filter (λ pathway, name pathway = pathway_name)
           (session_query (session self) (self_pathway_model self)) in
  match pathways with
  | [] => None
  | pathway :: _ => Some pathway
  end.

Definition get_all_pathways : list Pathway :=
  session_query (session self) (self_pathway_model self).

(** [get_all_hgnc_symbols]: a set comprehension over the members of
    all pathways. *)
Definition get_all_hgnc_symbols : gset string :=
  list_to_set
    (pathway ← get_all_pathways;
     gene ← proteins pathway;
     if decide (proteins pathway = []) then [] else [hgnc_symbol gene]).

(** The loop of [query_gene_set] over [pathway_counter.items()]: each
    identifier is looked up, and asking an absent pathway for its gene
    set raises. *)
Fixpoint enrich (items : Counter) (enrichment_results : gmap string EnrichmentRecord)
    : result (gmap string EnrichmentRecord) :=
  match items with
  | [] => ret enrichment_results
  | (pathway_id, proteins_mapped) :: items' =>
      pathway ←! get_pathway_by_id pathway_id;
      match pathway with
      | None =>
          raise (AttributeError
                   "'NoneType' object has no attribute 'get_gene_set'")
      | Some pathway =>
          let pathway_gene_set := get_gene_set pathway in
          enrich items'
            (<[pathway_id :=
                 {| pathway_id := pathway_id;
                    pathway_name := name pathway;
                    mapped_proteins := proteins_mapped;
                    pathway_size := size pathway_gene_set;
                    pathway_gene_set := pathway_gene_set |}]>
               enrichment_results)
      end
  end.

(** [query_gene_set]: the identifiers listed by the matched proteins
    are chained and counted, then every counted identifier gets its
    record. *)
Definition query_gene_set (gene_set : list string)
    : result (gmap string EnrichmentRecord) :=
  let proteins := _query_proteins_in_hgnc_list gene_set in
  let pathways_lists := get_pathways_ids <$> proteins in
  let pathway_counter := counter_of (mjoin pathways_lists) in
  enrich pathway_counter ∅.

(** [get_pathway_size_distribution]: a dict comprehension over the
    pathways that have members; a later row of the same name overwrites
    the entry. *)
Definition get_pathway_size_distribution : gmap string nat :=
  let pathways := get_all_pathways in
  foldl (λ sizes pathway,
           if decide (proteins pathway = []) then sizes
           else <[name pathway := length (proteins pathway)]> sizes)
        ∅ pathways.

(** [query_pathway_by_name]: the name filter, then the limit when
    [limit] is truthy, that is given and not zero. *)
Definition query_pathway_by_name `{Backend} (query : string) (limit : option Z)
    : result (list Pathway) :=
  let q :=
    filter (λ pathway, contains query (name pathway) = true)
           (session_query (session self) (self_pathway_model self)) in
  match limit with
  | Some n => if decide (n = 0%Z) then ret q else q_limit n q
  | None => ret q
  end.

(** [export_genesets]: a dict comprehension over all pathways. *)
Definition export_genesets : gmap string (gset string) :=
  foldl (λ genesets pathway,
           <[name pathway := list_to_set (hgnc_symbol <$> proteins pathway)]> genesets)
        ∅ (session_query (session self) (self_pathway_model self)).

(** [get_gene_distribution]: one increment per member row of every
    pathway that has members. *)
Definition get_gene_distribution : Counter :=
  foldl (λ gene_counter pathway,
           if decide (proteins pathway = []) then gene_counter
           else foldl (λ c gene, counter_incr (hgnc_symbol gene) c)
                      gene_counter (proteins pathway))
        [] get_all_pathways.

End Manager.

(** ** Auxiliary notions *)

(** The error raised when the pathway looked up is absent and its
    gene set is asked for. *)
Definition none_has_no_gene_set : exn :=
  AttributeError "'NoneType' object has no attribute 'get_gene_set'".

(** The record the loop stores for an identifier, its count and its row. *)
Definition record_for (id : string) (n : nat) (pathway : Pathway) : EnrichmentRecord :=
  {| pathway_id := id;
     pathway_name := name pathway;
     mapped_proteins := n;
     pathway_size := size (get_gene_set pathway);
     pathway_gene_set := get_gene_set pathway |}.

(** The counter [query_gene_set] builds before it loops. *)
Definition pathway_counter (self : CompathManager) (gene_set : list string) : Counter :=
  counter_of (mjoin (get_pathways_ids <$> _query_proteins_in_hgnc_list self gene_set)).

(** No two protein rows carry the same gene symbol. *)
Definition symbols_unique (self : CompathManager) : Prop :=
  NoDup (hgnc_symbol <$> session_query (session self) (self_protein_model self)).

(** [get_pathways_ids] lists no identifier twice. *)
Definition pathways_ids_distinct (self : CompathManager) : Prop :=
  Forall (λ protein, NoDup (get_pathways_ids protein))
         (session_query (session self) (self_protein_model self)).

(** Both directions of the membership relation agree: a protein row that
    lists the identifier of a pathway row is among that pathway's
    members. *)
Definition membership_consistent (self : CompathManager) : Prop :=
  Forall (λ protein,
    Forall (λ pathway,
      Forall (λ id,
        _standard_pathway_identifier_filter self id pathway = true →
        protein ∈ proteins pathway)
      (get_pathways_ids protein))
    (get_all_pathways self))
  (session_query (session self) (self_protein_model self)).

#[global] Instance symbols_unique_dec self : Decision (symbols_unique self).
Proof. unfold symbols_unique. apply _. Defined.

#[global] Instance pathways_ids_distinct_dec self : Decision (pathways_ids_distinct self).
Proof. unfold pathways_ids_distinct. apply _. Defined.

#[global] Instance membership_consistent_dec self : Decision (membership_consistent self).
Proof. unfold membership_consistent. apply _. Defined.


(** The bound identifier column takes a different value on each pathway
    row. *)
Definition identifier_column_NoDup (self : CompathManager) : Prop :=
  match self_pathway_model_identifier_column self with
  | Some column => NoDup (column <$> get_all_pathways self)
  | None => True
  end.

#[global] Instance identifier_column_NoDup_dec self : Decision (identifier_column_NoDup self).
Proof.
  unfold identifier_column_NoDup.
  destruct (self_pathway_model_identifier_column self); apply _.
Defined.

(** The last row of a given name, in retrieval order. *)
Definition last_named (pathway_name : string) (pathways : list Pathway) : option Pathway :=
  last (filter (λ pathway, name pathway = pathway_name) pathways).

(** The last row of a given name that has members. *)
Definition last_named_nonempty (pathway_name : string) (pathways : list Pathway)
    : option Pathway :=
  last (filter (λ pathway, name pathway = pathway_name ∧ proteins pathway ≠ []) pathways).

(** The gene symbols of the member rows of a pathway. *)
Definition member_symbols (pathway : Pathway) : list string :=
  hgnc_symbol <$> proteins pathway.

(** The pathways having a member with gene symbol [g]. *)
Definition pathways_containing (g : string) (pathways : list Pathway) : list Pathway :=
  filter (λ pathway, g ∈ member_symbols pathway) pathways.

(** The number of member rows with gene symbol [g], over all pathways. *)
Definition member_rows (g : string) (pathways : list Pathway) : nat :=
  sum_list_with (λ pathway, length (filter (λ s, s = g) (member_symbols pathway)))
                pathways.

(** The rows [query_pathway_by_name] selects before any limit applies. *)
Definition name_matches `{Backend} (self : CompathManager) (query : string) : list Pathway :=
  filter (λ pathway, contains query (name pathway) = true) (get_all_pathways self).

(** ** Two backends *)


(** A backend that compares names with regard to case and rejects a
    negative limit, as PostgreSQL does. *)
Definition rejecting_backend : Backend.
Proof.
  refine {| case_sensitive := true;
            q_limit n rows :=
              if decide (0 ≤ n)%Z then ret (take (Z.to_nat n) rows)
              else raise (BackendError "LIMIT must not be negative") |}.
  intros n rows Hn. by rewrite decide_True.
Defined.

(** ** The example store *)

Definition TP53 : Protein :=
  {| protein_pk := 1; hgnc_symbol := "TP53"; get_pathways_ids := ["1"; "2"] |}.
Definition BRCA1 : Protein :=
  {| protein_pk := 2; hgnc_symbol := "BRCA1"; get_pathways_ids := ["1"] |}.
Definition PW1 : Pathway :=
  {| pathway_pk := 1; identifier := "1"; name := "PW1"; proteins := [TP53; BRCA1] |}.
Definition PW2 : Pathway :=
  {| pathway_pk := 2; identifier := "2"; name := "PW2"; proteins := [TP53] |}.

Definition example_store : Session :=
  {| pathway_table := [PW1; PW2]; protein_table := [TP53; BRCA1] |}.

Definition ExampleManager : ManagerClass :=
  {| pathway_model := Some pathway_table;
     pathway_model_identifier_column := Some identifier;
     protein_model := Some protein_table |}.

(** The manager [ExampleManager] constructs on a store. *)
Definition manager_on (store : Session) : CompathManager :=
  {| self_pathway_model := pathway_table;
     self_pathway_model_identifier_column := Some identifier;
     self_protein_model := protein_table;
     session := store |}.

Definition example_manager : CompathManager := manager_on example_store.

(** A store in which two protein rows carry the same gene symbol and
    both are members of the one pathway. *)
Definition TP53_a : Protein :=
  {| protein_pk := 1; hgnc_symbol := "TP53"; get_pathways_ids := ["1"] |}.
Definition TP53_b : Protein :=
  {| protein_pk := 2; hgnc_symbol := "TP53"; get_pathways_ids := ["1"] |}.

Definition shared_symbol_store : Session :=
  {| pathway_table :=
       [ {| pathway_pk := 1; identifier := "1"; name := "PW1";
            proteins := [TP53_a; TP53_b] |} ];
     protein_table := [TP53_a; TP53_b] |}.

(** A store in which a protein lists an identifier that no pathway row
    carries. *)
Definition dangling_store : Session :=
  {| pathway_table :=
       [ {| pathway_pk := 1; identifier := "1"; name := "PW1";
            proteins := [ {| protein_pk := 1; hgnc_symbol := "TP53";
                             get_pathways_ids := ["1"; "9"] |} ] |} ];
     protein_table :=
       [ {| protein_pk := 1; hgnc_symbol := "TP53";
            get_pathways_ids := ["1"; "9"] |} ] |}.


(** A store in which a pathway without members shares its name with a
    later pathway that has one. *)
Definition shared_name_store : Session :=
  {| pathway_table :=
       [ {| pathway_pk := 1; identifier := "1"; name := "PW"; proteins := [] |};
         {| pathway_pk := 2; identifier := "2"; name := "PW";
            proteins := [ {| protein_pk := 1; hgnc_symbol := "TP53";
                             get_pathways_ids := ["2"] |} ] |} ];
     protein_table :=
       [ {| protein_pk := 1; hgnc_symbol := "TP53"; get_pathways_ids := ["2"] |} ] |}.

(** A store in which a pathway has no members and a name of its own. *)
Definition PW3 : Pathway :=
  {| pathway_pk := 3; identifier := "3"; name := "PW3"; proteins := [] |}.

Definition empty_pathway_store : Session :=
  {| pathway_table := [PW1; PW2; PW3]; protein_table := [TP53; BRCA1] |}.

(** A store in which two pathway rows carry the same identifier. *)
Definition PW1_copy : Pathway :=
  {| pathway_pk := 4; identifier := "1"; name := "PW1 (copy)"; proteins := [BRCA1] |}.

Definition duplicate_identifier_store : Session :=
  {| pathway_table := [PW1; PW2; PW1_copy]; protein_table := [TP53; BRCA1] |}.

(** The manager [NoIdentifierManager] constructs on a store. *)
Definition manager_without_column (store : Session) : CompathManager :=
  {| self_pathway_model := pathway_table;
     self_pathway_model_identifier_column := None;
     self_protein_model := protein_table;
     session := store |}.

(** A manager class that binds both models and no identifier column. *)
Definition NoIdentifierManager : ManagerClass :=
  {| pathway_model := Some pathway_table;
     pathway_model_identifier_column := None;
     protein_model := Some protein_table |}.


(** A closed decidable proposition holds when its decision procedure
    evaluates to true. *)
Ltac by_compute := apply (bool_decide_unpack _); vm_compute; exact I.

(** ** Counters *)

Section CounterFacts.

Implicit Types (c : Counter) (k key : string) (l : list string).

Lemma counter_get_incr key k c :
  counter_get key (counter_incr k c) =
  counter_get key c + (if decide (key = k) then 1 else 0).
Proof.
  induction c as [|[k' n] c IH]; simpl.
  - repeat case_decide; lia.
  - destruct (decide (k = k')) as [->|Hk]; simpl.
    + repeat case_decide; subst; try lia; congruence.
    + rewrite IH. repeat case_decide; subst; try lia; congruence.
Qed.

Lemma counter_get_update key c l :
  counter_get key (counter_update c l) =
  counter_get key c + length (filter (λ k, k = key) l).
Proof.
  unfold counter_update. revert c.
  induction l as [|k l IH]; intros c; simpl; [lia|].
  rewrite IH, counter_get_incr, filter_cons.
  repeat case_decide; subst; simpl; try lia; congruence.
Qed.

Lemma counter_get_of key l :
  counter_get key (counter_of l) = length (filter (λ k, k = key) l).
Proof. unfold counter_of. by rewrite counter_get_update. Qed.

Lemma counter_incr_keys key k c :
  key ∈ (counter_incr k c).*1 ↔ key = k ∨ key ∈ c.*1.
Proof.
  induction c as [|[k' n] c IH]; simpl.
  - rewrite list_elem_of_singleton, elem_of_nil. tauto.
  - destruct (decide (k = k')) as [->|Hk]; simpl;
      rewrite !elem_of_cons; [|rewrite IH]; tauto.
Qed.

Lemma counter_update_keys key c l :
  key ∈ (counter_update c l).*1 ↔ key ∈ l ∨ key ∈ c.*1.
Proof.
  unfold counter_update. revert c.
  induction l as [|k l IH]; intros c; simpl.
  - set_solver.
  - rewrite IH, counter_incr_keys. set_solver.
Qed.

Lemma counter_of_keys key l : key ∈ (counter_of l).*1 ↔ key ∈ l.
Proof. unfold counter_of. rewrite counter_update_keys. set_solver. Qed.

Lemma counter_incr_NoDup k c : NoDup c.*1 → NoDup (counter_incr k c).*1.
Proof.
  induction c as [|[k' n] c IH]; simpl; intros Hnd.
  - apply NoDup_singleton.
  - apply NoDup_cons in Hnd as [Hk' Hnd].
    destruct (decide (k = k')) as [->|Hk]; simpl.
    + by apply NoDup_cons.
    + apply NoDup_cons. split; [|by apply IH].
      rewrite counter_incr_keys. intros [?|?]; [congruence|done].
Qed.

Lemma counter_update_NoDup c l : NoDup c.*1 → NoDup (counter_update c l).*1.
Proof.
  unfold counter_update. revert c.
  induction l as [|k l IH]; intros c Hnd; simpl; [done|].
  by apply IH, counter_incr_NoDup.
Qed.

Lemma counter_of_NoDup l : NoDup (counter_of l).*1.
Proof. apply counter_update_NoDup. constructor. Qed.

(** In a counter with distinct keys an item holds the count of its key. *)
Lemma counter_get_item k n c :
  NoDup c.*1 → (k, n) ∈ c → counter_get k c = n.
Proof.
  induction c as [|[k' n'] c IH]; simpl; intros Hnd Hin.
  - by apply elem_of_nil in Hin.
  - apply NoDup_cons in Hnd as [Hk' Hnd].
    apply elem_of_cons in Hin as [Heq|Hin].
    + injection Heq as -> ->. by rewrite decide_True.
    + rewrite decide_False; [by apply IH|].
      intros ->. apply Hk'. apply list_elem_of_fmap. by exists (k', n).
Qed.

Lemma counter_get_key k c : k ∈ c.*1 → (k, counter_get k c) ∈ c.
Proof.
  induction c as [|[k' n'] c IH]; simpl; intros Hin.
  - by apply elem_of_nil in Hin.
  - destruct (decide (k = k')) as [->|Hk]; [left|].
    apply elem_of_cons in Hin as [?|Hin]; [done|]. right. by apply IH.
Qed.

Lemma counter_get_not_key k c : k ∉ c.*1 → counter_get k c = 0.
Proof.
  induction c as [|[k' n'] c IH]; simpl; intros Hin; [done|].
  rewrite decide_False; [apply IH|]; set_solver.
Qed.

End CounterFacts.

(** ** The enrichment loop *)

Section EnrichFacts.

Variable self : CompathManager.

Implicit Types (items : Counter) (m r : gmap string EnrichmentRecord).

Lemma one_or_none_cases {Row : Type} (rows : list Row) :
  (rows = [] ∧ one_or_none rows = ret None)
  ∨ (∃ row, rows = [row] ∧ one_or_none rows = ret (Some row))
  ∨ ((2 ≤ length rows)%nat ∧ one_or_none rows = raise MultipleResultsFound).
Proof.
  destruct rows as [|row [|row' rows]]; simpl; [auto|eauto|].
  right; right. split; [lia|done].
Qed.

Lemma get_pathway_by_id_Some id pathway :
  get_pathway_by_id self id = ret (Some pathway) →
  pathway ∈ get_all_pathways self
  ∧ _standard_pathway_identifier_filter self id pathway = true.
Proof.
  unfold get_pathway_by_id, get_all_pathways. intros Hone.
  destruct (one_or_none_cases
    (filter (λ pathway, _standard_pathway_identifier_filter self id pathway = true)
       (session_query (session self) (self_pathway_model self))))
    as [[_ Heq]|[[row [Hrows Heq]]|[_ Heq]]];
    rewrite Heq in Hone; try discriminate.
  injection Hone as ->.
  assert (Hin : pathway ∈ filter
    (λ pathway, _standard_pathway_identifier_filter self id pathway = true)
    (session_query (session self) (self_pathway_model self))).
  { rewrite Hrows. by apply list_elem_of_singleton. }
  apply list_elem_of_filter in Hin. tauto.
Qed.

Lemma get_pathway_by_id_raise id e :
  get_pathway_by_id self id = raise e → e = MultipleResultsFound.
Proof.
  unfold get_pathway_by_id. intros Hone.
  destruct (one_or_none_cases
    (filter (λ pathway, _standard_pathway_identifier_filter self id pathway = true)
       (session_query (session self) (self_pathway_model self))))
    as [[_ Heq]|[[row [_ Heq]]|[_ Heq]]];
    rewrite Heq in Hone; try discriminate.
  by injection Hone.
Qed.



Lemma enrich_cons id n items m :
  enrich self ((id, n) :: items) m =
  match get_pathway_by_id self id with
  | inl e => raise e
  | inr None => raise none_has_no_gene_set
  | inr (Some pathway) => enrich self items (<[id := record_for id n pathway]> m)
  end.
Proof. simpl. by destruct (get_pathway_by_id self id) as [e|[pathway|]]. Qed.

(** A completed loop has stored one record per item and has left every
    other key as it was. *)
Lemma enrich_ret items : ∀ m r,
  NoDup items.*1 →
  enrich self items m = ret r →
  ∀ k,
    (k ∉ items.*1 → r !! k = m !! k)
    ∧ (∀ n, (k, n) ∈ items →
         ∃ pathway, get_pathway_by_id self k = ret (Some pathway)
                    ∧ r !! k = Some (record_for k n pathway)).
Proof.
  induction items as [|[id n] items IH]; intros m r Hnd Hrun k.
  - injection Hrun as <-. split; [done|]. intros n Hin.
    by apply elem_of_nil in Hin.
  - rewrite enrich_cons in Hrun.
    simpl in Hnd. apply NoDup_cons in Hnd as [Hid Hnd].
    destruct (get_pathway_by_id self id) as [e|[pathway|]] eqn:Hget;
      try discriminate.
    destruct (IH _ _ Hnd Hrun k) as [Hout Hin].
    destruct (IH _ _ Hnd Hrun id) as [Hout_id _].
    split.
    + simpl. rewrite not_elem_of_cons. intros [Hne Hk].
      rewrite (Hout Hk). by apply lookup_insert_ne.
    + intros n' Hmem. apply elem_of_cons in Hmem as [Heq|Hmem].
      * injection Heq as -> ->. exists pathway. split; [done|].
        rewrite (Hout_id Hid). apply lookup_insert_eq.
      * by apply Hin.
Qed.

(** The loop completes when every item resolves to one pathway row. *)
Lemma enrich_returns items : ∀ m,
  (∀ k, k ∈ items.*1 → ∃ pathway, get_pathway_by_id self k = ret (Some pathway)) →
  ∃ r, enrich self items m = ret r.
Proof.
  induction items as [|[id n] items IH]; intros m Hres.
  - by exists m.
  - rewrite enrich_cons.
    destruct (Hres id) as [pathway ->]; [left|].
    apply IH. intros k Hk. apply Hres. by right.
Qed.


Lemma enrich_raise_attribute items : ∀ m id,
  id ∈ items.*1 →
  get_pathway_by_id self id = ret None →
  (∀ k, k ∈ items.*1 → get_pathway_by_id self k ≠ raise MultipleResultsFound) →
  enrich self items m = raise none_has_no_gene_set.
Proof.
  induction items as [|[id' n] items IH]; intros m id Hin Hnone Huniq.
  - by apply elem_of_nil in Hin.
  - rewrite enrich_cons. simpl in Hin.
    destruct (get_pathway_by_id self id') as [e|[pathway|]] eqn:Hget.
    + exfalso. apply (Huniq id'); [left|].
      rewrite Hget. f_equal. by eapply get_pathway_by_id_raise.
    + apply elem_of_cons in Hin as [->|Hin]; [congruence|].
      apply (IH _ id); [done..|]. intros k Hk. apply Huniq. by right.
    + done.
Qed.

End EnrichFacts.

(** ** The enrichment query *)

Section QueryGeneSetFacts.

Variable self : CompathManager.

Implicit Types (gene_set : list string) (r : gmap string EnrichmentRecord).

Lemma query_gene_set_unfold gene_set :
  query_gene_set self gene_set = enrich self (pathway_counter self gene_set) ∅.
Proof. reflexivity. Qed.

Lemma matched_in_table gene_set protein :
  protein ∈ _query_proteins_in_hgnc_list self gene_set →
  protein ∈ session_query (session self) (self_protein_model self)
  ∧ hgnc_symbol protein ∈ gene_set.
Proof.
  unfold _query_proteins_in_hgnc_list. rewrite list_elem_of_filter. tauto.
Qed.

(** The keys of the counter are the identifiers the matched proteins list. *)
Lemma pathway_counter_keys gene_set id :
  id ∈ (pathway_counter self gene_set).*1 ↔
  ∃ protein, protein ∈ _query_proteins_in_hgnc_list self gene_set
             ∧ id ∈ get_pathways_ids protein.
Proof.
  unfold pathway_counter. rewrite counter_of_keys, list_elem_of_join.
  split.
  - intros (ids & Hid & Hids). apply list_elem_of_fmap in Hids as (p & -> & Hp).
    by exists p.
  - intros (p & Hp & Hid). exists (get_pathways_ids p). split; [done|].
    by apply list_elem_of_fmap_2.
Qed.

(** The count of a key is the number of its listings by matched proteins. *)
Lemma pathway_counter_get gene_set id :
  counter_get id (pathway_counter self gene_set) =
  length (filter (λ k, k = id)
            (mjoin (get_pathways_ids <$> _query_proteins_in_hgnc_list self gene_set))).
Proof. apply counter_get_of. Qed.

Lemma pathway_counter_item_pos gene_set id n :
  (id, n) ∈ pathway_counter self gene_set → (1 ≤ n)%nat.
Proof.
  intros Hin.
  assert (Hkey : id ∈ (pathway_counter self gene_set).*1).
  { apply list_elem_of_fmap. by exists (id, n). }
  rewrite <- (counter_get_item id n (pathway_counter self gene_set));
    [|apply counter_of_NoDup|done].
  rewrite pathway_counter_get.
  unfold pathway_counter in Hkey. rewrite counter_of_keys in Hkey.
  destruct (filter (λ k, k = id) _) as [|k ks] eqn:Hf; simpl; [|lia].
  exfalso. assert (Hmem : id ∈ filter (λ k, k = id)
    (mjoin (get_pathways_ids <$> _query_proteins_in_hgnc_list self gene_set))).
  { apply list_elem_of_filter. split; [done|]. exact Hkey. }
  rewrite Hf in Hmem. by apply elem_of_nil in Hmem.
Qed.

(** What a returned mapping holds at each key. *)
Lemma query_gene_set_lookup gene_set r id rec :
  query_gene_set self gene_set = ret r →
  r !! id = Some rec →
  ∃ pathway,
    get_pathway_by_id self id = ret (Some pathway)
    ∧ rec = record_for id (counter_get id (pathway_counter self gene_set)) pathway
    ∧ id ∈ (pathway_counter self gene_set).*1.
Proof.
  rewrite query_gene_set_unfold. intros Hrun Hrec.
  pose proof (enrich_ret self _ _ _ (counter_of_NoDup _) Hrun id) as [Hout Hin].
  destruct (decide (id ∈ (pathway_counter self gene_set).*1)) as [Hkey|Hkey].
  - destruct (Hin _ (counter_get_key _ _ Hkey)) as (pathway & Hget & Hr).
    exists pathway. split; [done|]. split; [congruence|done].
  - rewrite (Hout Hkey), lookup_empty in Hrec. discriminate.
Qed.

(** The query returns a mapping when every identifier a matched protein
    lists resolves to one pathway row. *)
Lemma query_gene_set_returns gene_set :
  (∀ protein id, protein ∈ _query_proteins_in_hgnc_list self gene_set →
                 id ∈ get_pathways_ids protein →
                 ∃ pathway, get_pathway_by_id self id = ret (Some pathway)) →
  ∃ r, query_gene_set self gene_set = ret r.
Proof.
  intros Hres. rewrite query_gene_set_unfold. apply enrich_returns.
  intros id Hkey. apply pathway_counter_keys in Hkey as (protein & Hp & Hid).
  by apply (Hres protein).
Qed.

Lemma query_gene_set_absent gene_set r id :
  query_gene_set self gene_set = ret r →
  id ∉ (pathway_counter self gene_set).*1 →
  r !! id = None.
Proof.
  rewrite query_gene_set_unfold. intros Hrun Hkey.
  pose proof (enrich_ret self _ _ _ (counter_of_NoDup _) Hrun id) as [Hout _].
  by rewrite (Hout Hkey), lookup_empty.
Qed.

End QueryGeneSetFacts.

(** ** Counting matched proteins against the pathway size *)

Section MappedProteins.

Variable self : CompathManager.

Lemma length_filter_eq_NoDup (id : string) (ids : list string) :
  NoDup ids →
  length (filter (λ k, k = id) ids) = if decide (id ∈ ids) then 1%nat else 0%nat.
Proof.
  induction ids as [|k ids IH]; intros Hnd.
  - rewrite decide_False; [done|]. apply not_elem_of_nil.
  - apply NoDup_cons in Hnd as [Hk Hnd]. rewrite filter_cons.
    destruct (decide (k = id)) as [->|Hne]; simpl; rewrite (IH Hnd).
    + rewrite (decide_False _ _ Hk), decide_True; [done|]. by left.
    + destruct (decide (id ∈ ids)) as [Hin|Hin].
      * rewrite decide_True; [done|]. by right.
      * rewrite decide_False; [done|].
        rewrite not_elem_of_cons. split; [congruence|done].
Qed.

(** With identifier lists free of repetitions, the listings of an
    identifier are the protein rows that list it. *)
Lemma listings_are_rows (id : string) (rows : list Protein) :
  Forall (λ protein, NoDup (get_pathways_ids protein)) rows →
  length (filter (λ k, k = id) (mjoin (get_pathways_ids <$> rows))) =
  length (filter (λ protein, id ∈ get_pathways_ids protein) rows).
Proof.
  induction rows as [|p rows IH]; intros Hall; [done|].
  apply Forall_cons in Hall as [Hp Hall].
  rewrite fmap_cons. simpl mjoin.
  rewrite filter_app, length_app, (IH Hall), (length_filter_eq_NoDup _ _ Hp).
  rewrite (filter_cons (λ protein, id ∈ get_pathways_ids protein)).
  by destruct (decide (id ∈ get_pathways_ids p)).
Qed.

Lemma Forall_matched (P : Protein → Prop) gene_set :
  Forall P (session_query (session self) (self_protein_model self)) →
  Forall P (_query_proteins_in_hgnc_list self gene_set).
Proof.
  rewrite !Forall_forall. intros Hall p Hp.
  by apply Hall, (matched_in_table self gene_set).
Qed.

(** On a store with unique gene symbols, identifier lists free of
    repetitions and a consistent membership relation, the count of an
    identifier is at most the size of the gene set of its pathway. *)
Lemma counter_le_gene_set gene_set id pathway :
  symbols_unique self →
  pathways_ids_distinct self →
  membership_consistent self →
  get_pathway_by_id self id = ret (Some pathway) →
  (counter_get id (pathway_counter self gene_set) ≤ size (get_gene_set pathway))%nat.
Proof.
  intros Huniq Hdistinct Hcons Hget.
  apply get_pathway_by_id_Some in Hget as [Hrow Hfilter].
  rewrite pathway_counter_get, listings_are_rows
    by (by apply Forall_matched).
  set (rows := filter (λ protein, id ∈ get_pathways_ids protein)
                 (_query_proteins_in_hgnc_list self gene_set)).
  rewrite <- (length_fmap hgnc_symbol rows).
  unfold size, set_size. simpl.
  apply submseteq_length, NoDup_submseteq.
  - eapply sublist_NoDup; [exact Huniq|].
    apply fmap_sublist. subst rows.
    etrans; [apply sublist_filter|]. apply sublist_filter.
  - intros s Hs. apply list_elem_of_fmap in Hs as (p & -> & Hp).
    subst rows. apply list_elem_of_filter in Hp as [Hid Hp].
    apply matched_in_table in Hp as [Hp _].
    apply elem_of_elements. unfold get_gene_set.
    apply elem_of_list_to_set, list_elem_of_fmap_2.
    unfold membership_consistent in Hcons.
    rewrite Forall_forall in Hcons. specialize (Hcons _ Hp).
    rewrite Forall_forall in Hcons. specialize (Hcons _ Hrow).
    rewrite Forall_forall in Hcons. by apply (Hcons id).
Qed.

End MappedProteins.

(** ** Properties of the enrichment query *)

(** C1: on the store holding exactly pathway "PW1" (identifier "1", members
    TP53 and BRCA1) and pathway "PW2" (identifier "2", member TP53), the
    constructed manager answers [query_gene_set] of the gene set {TP53}
    with exactly the mapping of "1" to (PW1, 1 mapped protein, size 2, gene
    set {TP53, BRCA1}) and of "2" to (PW2, 1 mapped protein, size 1, gene
    set {TP53}). *)
Theorem query_gene_set_round_trip :
  (self ←! __init__ ExampleManager example_store;
   query_gene_set self ["TP53"]) =
  ret (<["1" := {| pathway_id := "1"; pathway_name := "PW1"; mapped_proteins := 1;
                   pathway_size := 2; pathway_gene_set := {["TP53"; "BRCA1"]} |}]>
       (<["2" := {| pathway_id := "2"; pathway_name := "PW2"; mapped_proteins := 1;
                    pathway_size := 1; pathway_gene_set := {["TP53"]} |}]> ∅)).
Proof. vm_compute. reflexivity. Qed.

(** On the store with a shared gene symbol the one pathway counts two
    mapped proteins against a gene set of size one. *)
Lemma shared_symbol_query :
  query_gene_set (manager_on shared_symbol_store) ["TP53"] =
  ret {["1" := {| pathway_id := "1"; pathway_name := "PW1"; mapped_proteins := 2;
                  pathway_size := 1; pathway_gene_set := {["TP53"]} |}]}.
Proof. vm_compute. reflexivity. Qed.

(** That store lists no identifier twice and its membership relation is
    consistent; only the gene symbols repeat. *)
Lemma shared_symbol_store_shape :
  pathways_ids_distinct (manager_on shared_symbol_store)
  ∧ membership_consistent (manager_on shared_symbol_store)
  ∧ ¬ symbols_unique (manager_on shared_symbol_store).
Proof.
  split; [|split].
  - by_compute.
  - by_compute.
  - intros Hu. apply (bool_decide_pack _) in Hu. vm_compute in Hu. exact Hu.
Qed.

(** C3, as stated, fails: with two protein rows of one gene symbol in a
    pathway, the record has more mapped proteins than the pathway has
    gene symbols. *)
Lemma mapped_proteins_le_pathway_size_fails :
  ¬ (∀ (self : CompathManager) (gene_set : list string)
       (r : gmap string EnrichmentRecord) (id : string) (rec : EnrichmentRecord),
       query_gene_set self gene_set = ret r →
       r !! id = Some rec →
       (mapped_proteins rec ≤ pathway_size rec)%nat).
Proof.
  intros Hclaim.
  pose proof (Hclaim _ _ _ "1" _ shared_symbol_query (lookup_singleton_eq _ _)) as Hle.
  simpl in Hle. lia.
Qed.

(** C3, amended: on a store where no two protein rows carry the same gene
    symbol, no protein lists a pathway identifier twice and the membership
    relation is consistent, every record of a mapping returned by
    [query_gene_set] has [mapped_proteins] at most [pathway_size]. *)
Theorem mapped_proteins_le_pathway_size
    (self : CompathManager) (gene_set : list string)
    (r : gmap string EnrichmentRecord) (id : string) (rec : EnrichmentRecord) :
  symbols_unique self →
  pathways_ids_distinct self →
  membership_consistent self →
  query_gene_set self gene_set = ret r →
  r !! id = Some rec →
  (mapped_proteins rec ≤ pathway_size rec)%nat.
Proof.
  intros Huniq Hdistinct Hcons Hrun Hrec.
  destruct (query_gene_set_lookup self _ _ _ _ Hrun Hrec) as (pathway & Hget & -> & _).
  simpl. by apply counter_le_gene_set.
Qed.

Lemma mapped_proteins_le_pathway_size_witness :
  symbols_unique example_manager
  ∧ pathways_ids_distinct example_manager
  ∧ membership_consistent example_manager
  ∧ (mapped_proteins (record_for "1" 1 PW1) ≤ pathway_size (record_for "1" 1 PW1))%nat.
Proof.
  assert (Hu : symbols_unique example_manager)
    by by_compute.
  assert (Hd : pathways_ids_distinct example_manager)
    by by_compute.
  assert (Hc : membership_consistent example_manager)
    by by_compute.
  repeat split; try assumption.
  apply (mapped_proteins_le_pathway_size example_manager ["TP53"]
           (<["1" := record_for "1" 1 PW1]> (<["2" := record_for "2" 1 PW2]> ∅))
           "1" (record_for "1" 1 PW1) Hu Hd Hc).
  - vm_compute. reflexivity.
  - vm_compute. reflexivity.
Defined.

(** C4: the empty gene set is answered with the empty mapping; and for
    every gene set, every key of a returned mapping is a pathway
    identifier that resolves to a pathway row, is listed by some matched
    protein, and holds a record with [mapped_proteins] at least 1, while
    an identifier that no matched protein lists is not a key at all. *)
Theorem query_gene_set_keys_are_mapped (self : CompathManager) :
  query_gene_set self [] = ret ∅
  ∧ ∀ (gene_set : list string) (r : gmap string EnrichmentRecord),
      query_gene_set self gene_set = ret r →
      (∀ id rec, r !! id = Some rec →
         pathway_id rec = id
         ∧ (1 ≤ mapped_proteins rec)%nat
         ∧ (∃ pathway, get_pathway_by_id self id = ret (Some pathway))
         ∧ (∃ protein, protein ∈ _query_proteins_in_hgnc_list self gene_set
                       ∧ id ∈ get_pathways_ids protein))
      ∧ (∀ id, (∀ protein, protein ∈ _query_proteins_in_hgnc_list self gene_set →
                           id ∉ get_pathways_ids protein) →
               r !! id = None).
Proof.
  split.
  - rewrite query_gene_set_unfold. unfold pathway_counter, _query_proteins_in_hgnc_list.
    assert (Hnone : filter (λ protein, hgnc_symbol protein ∈ ([] : list string))
              (session_query (session self) (self_protein_model self)) = []).
    { induction (session_query (session self) (self_protein_model self))
        as [|p ps IH]; [done|].
      rewrite filter_cons, decide_False by apply not_elem_of_nil. exact IH. }
    by rewrite Hnone.
  - intros gene_set r Hrun. split.
    + intros id rec Hrec.
      destruct (query_gene_set_lookup self _ _ _ _ Hrun Hrec)
        as (pathway & Hget & -> & Hkey).
      simpl. split; [done|]. split; [|split].
      * eapply pathway_counter_item_pos. by apply counter_get_key.
      * by exists pathway.
      * by apply pathway_counter_keys.
    + intros id Hnot. apply (query_gene_set_absent self gene_set); [done|].
      rewrite pathway_counter_keys. intros (protein & Hp & Hid).
      by apply (Hnot protein).
Qed.

Lemma query_gene_set_keys_are_mapped_witness :
  query_gene_set example_manager ["BRCA1"] = ret {["1" := record_for "1" 1 PW1]}
  ∧ (1 ≤ mapped_proteins (record_for "1" 1 PW1))%nat
  ∧ ({["1" := record_for "1" 1 PW1]} : gmap string EnrichmentRecord) !! "2" = None.
Proof.
  assert (Hrun : query_gene_set example_manager ["BRCA1"]
                 = ret {["1" := record_for "1" 1 PW1]})
    by (vm_compute; reflexivity).
  destruct (query_gene_set_keys_are_mapped example_manager) as [_ Hkeys].
  destruct (Hkeys _ _ Hrun) as [Hin Hout].
  split; [exact Hrun|]. split.
  - apply (Hin "1" (record_for "1" 1 PW1)). vm_compute. reflexivity.
  - apply (Hout "2"). intros protein Hp.
    apply (bool_decide_unpack _). revert protein Hp.
    apply Forall_forall. by_compute.
Defined.






(** ** Construction *)

(** C2, as stated, fails: a manager class that binds both models and no
    identifier column is constructed without error. *)
Lemma missing_identifier_column_constructs :
  ¬ (∀ (cls : ManagerClass) (connection : Session),
       pathway_model cls = None ∨ protein_model cls = None
       ∨ pathway_model_identifier_column cls = None →
       ∃ e, __init__ cls connection = raise e).
Proof.
  intros Hclaim.
  destruct (Hclaim NoIdentifierManager example_store) as [e He].
  - right; right. reflexivity.
  - vm_compute in He. discriminate.
Qed.

(** C2, amended: constructing a manager whose class leaves the pathway
    model unbound raises [CompathManagerPathwayModelError], and one whose
    class binds the pathway model and leaves the protein model unbound
    raises [CompathManagerProteinModelError]; the message names the
    unbound field and no manager is constructed, so no query can be made.
    When both models are bound the manager is constructed, whether or not
    an identifier column is bound. *)
Theorem init_requires_both_models (cls : ManagerClass) (connection : Session) :
  (pathway_model cls = None →
   ∃ msg, __init__ cls connection = raise (CompathManagerPathwayModelError msg)
          ∧ is_substring "pathway_model" msg = true)
  ∧ (is_Some (pathway_model cls) → protein_model cls = None →
     ∃ msg, __init__ cls connection = raise (CompathManagerProteinModelError msg)
            ∧ is_substring "protein_model" msg = true)
  ∧ (∀ pathways proteins,
       pathway_model cls = Some pathways → protein_model cls = Some proteins →
       __init__ cls connection =
       ret {| self_pathway_model := pathways;
              self_pathway_model_identifier_column :=
                pathway_model_identifier_column cls;
              self_protein_model := proteins;
              session := connection |}).
Proof.
  unfold __init__. split; [|split].
  - intros ->. eexists. split; [reflexivity|]. vm_compute. reflexivity.
  - intros [pathways ->] ->. eexists. split; [reflexivity|]. vm_compute. reflexivity.
  - intros pathways proteins -> ->. reflexivity.
Qed.

Lemma init_requires_both_models_witness :
  (∃ msg, __init__ {| pathway_model := None;
                      pathway_model_identifier_column := Some identifier;
                      protein_model := Some protein_table |} example_store
          = raise (CompathManagerPathwayModelError msg)
          ∧ is_substring "pathway_model" msg = true)
  ∧ (∃ msg, __init__ {| pathway_model := Some pathway_table;
                        pathway_model_identifier_column := Some identifier;
                        protein_model := None |} example_store
            = raise (CompathManagerProteinModelError msg)
            ∧ is_substring "protein_model" msg = true)
  ∧ __init__ NoIdentifierManager example_store =
    ret {| self_pathway_model := pathway_table;
           self_pathway_model_identifier_column := None;
           self_protein_model := protein_table;
           session := example_store |}.
Proof.
  split; [|split].
  - apply (proj1 (init_requires_both_models _ example_store)). reflexivity.
  - apply (proj1 (proj2 (init_requires_both_models _ example_store))).
    + eexists. reflexivity.
    + reflexivity.
  - apply (proj2 (proj2 (init_requires_both_models NoIdentifierManager example_store))).
    + reflexivity.
    + reflexivity.
Defined.

(** ** Lookup by name *)

Section QueryPathwayByName.

Context `{Backend}.

Variable self : CompathManager.

Lemma query_pathway_by_name_no_limit query :
  query_pathway_by_name self query None = ret (name_matches self query).
Proof. reflexivity. Qed.


Lemma query_pathway_by_name_nonzero query n :
  n ≠ 0%Z →
  query_pathway_by_name self query (Some n) = q_limit n (name_matches self query).
Proof.
  intros Hn. unfold query_pathway_by_name. by rewrite decide_False.
Qed.

Lemma query_pathway_by_name_positive query n :
  (0 < n)%Z →
  query_pathway_by_name self query (Some n) =
  ret (take (Z.to_nat n) (name_matches self query)).
Proof.
  intros Hn. rewrite query_pathway_by_name_nonzero by lia.
  apply q_limit_nonneg. lia.
Qed.

Lemma prefix_lower (p s : string) :
  String.prefix p s = true → String.prefix (lower p) (lower s) = true.
Proof.
  revert s. induction p as [|c p IH]; intros s; [by destruct s|].
  destruct s as [|d s]; [done|]. simpl.
  destruct (Ascii.ascii_dec c d) as [->|]; [|discriminate].
  intros Hp. destruct (Ascii.ascii_dec _ _); [by apply IH|done].
Qed.

Lemma is_substring_lower (q s : string) :
  is_substring q s = true → is_substring (lower q) (lower s) = true.
Proof.
  induction s as [|d s IH].
  - by destruct q.
  - change (String.prefix q (String d s) || is_substring q s = true →
            String.prefix (lower q) (lower (String d s))
            || is_substring (lower q) (lower s) = true).
    intros [Hp|Hs]%orb_true_iff; apply orb_true_iff.
    + left. by apply prefix_lower.
    + right. by apply IH.
Qed.

(** A name that contains the query is matched on every backend. *)
Lemma contains_literal (q s : string) :
  is_substring q s = true → contains q s = true.
Proof.
  unfold contains, fold_case. destruct case_sensitive; [done|].
  apply is_substring_lower.
Qed.





End QueryPathwayByName.




(** ** Dictionaries built from the pathway rows *)

Section LastWins.

Context {V : Type}.

Variables (val : Pathway → V) (keep : Pathway → Prop).
Context `{!∀ pathway, Decision (keep pathway)}.

Implicit Types (pathways : list Pathway) (m : gmap string V).

(** A dictionary comprehension with a condition: of the rows kept, the
    last one of each name provides the entry. *)
Lemma comprehension_lookup pathways m k :
  foldl (λ m pathway,
           if decide (keep pathway) then <[name pathway := val pathway]> m else m)
        m pathways !! k =
  match last (filter (λ pathway, name pathway = k ∧ keep pathway) pathways) with
  | Some pathway => Some (val pathway)
  | None => m !! k
  end.
Proof.
  induction pathways as [|pathway pathways IH] using rev_ind; [done|].
  rewrite foldl_snoc, filter_app, filter_cons, filter_nil.
  destruct (decide (keep pathway)) as [Hkeep|Hkeep].
  - destruct (decide (name pathway = k)) as [Hname|Hname].
    + rewrite decide_True by done. rewrite last_snoc.
      rewrite Hname. apply lookup_insert_eq.
    + rewrite decide_False by tauto. rewrite app_nil_r.
      by rewrite lookup_insert_ne.
  - rewrite decide_False by tauto. by rewrite app_nil_r.
Qed.

End LastWins.

Section FilterLast.

Context {A : Type} (P : A → Prop) `{!∀ x, Decision (P x)}.

Lemma last_filter_Some (l : list A) (x : A) :
  last (filter P l) = Some x → x ∈ l ∧ P x.
Proof.
  intros Hlast. apply last_Some_elem_of, list_elem_of_filter in Hlast. tauto.
Qed.

Lemma last_filter_is_Some (l : list A) (x : A) :
  x ∈ l → P x → is_Some (last (filter P l)).
Proof.
  intros Hin HP. apply last_is_Some. intros Hnil.
  by apply (filter_nil_not_elem_of P l x).
Qed.

Lemma last_filter_None (l : list A) :
  (∀ x, x ∈ l → ¬ P x) → last (filter P l) = None.
Proof.
  intros Hnone. apply last_None.
  destruct (filter P l) as [|x xs] eqn:Hf; [done|]. exfalso.
  assert (Hx : x ∈ filter P l) by (rewrite Hf; left).
  apply list_elem_of_filter in Hx as [HP Hx]. by apply (Hnone x).
Qed.

End FilterLast.

Section Dictionaries.

Variable self : CompathManager.

Lemma export_genesets_lookup (k : string) :
  export_genesets self !! k =
  (λ pathway, list_to_set (member_symbols pathway))
    <$> last_named k (get_all_pathways self).
Proof.
  unfold export_genesets, last_named, get_all_pathways.
  pose proof (comprehension_lookup
    (λ pathway, list_to_set (member_symbols pathway) : gset string) (λ _, True)
    (session_query (session self) (self_pathway_model self)) ∅ k) as Hlook.
  simpl in Hlook. unfold member_symbols in *.
  rewrite Hlook, lookup_empty.
  rewrite (list_filter_iff (λ pathway, name pathway = k ∧ True)
                           (λ pathway, name pathway = k)) by tauto.
  by destruct (last _).
Qed.

Lemma get_pathway_size_distribution_lookup (k : string) :
  get_pathway_size_distribution self !! k =
  (λ pathway, length (proteins pathway))
    <$> last_named_nonempty k (get_all_pathways self).
Proof.
  unfold get_pathway_size_distribution, last_named_nonempty.
  trans (foldl (λ (m : gmap string nat) pathway,
                  if decide (proteins pathway ≠ [])
                  then <[name pathway := length (proteins pathway)]> m else m)
               ∅ (get_all_pathways self) !! k).
  - f_equal. generalize (∅ : gmap string nat).
    induction (get_all_pathways self) as [|pathway pathways IH]; intros m; [done|].
    simpl. rewrite IH. f_equal.
    destruct (decide (proteins pathway = [])) as [Hnil|Hnil].
    + rewrite decide_False; [done|]. by intros Hne.
    + by rewrite decide_True.
  - rewrite (comprehension_lookup (λ pathway, length (proteins pathway))
               (λ pathway, proteins pathway ≠ [])), lookup_empty.
    by destruct (last _).
Qed.

End Dictionaries.

Section UniqueNames.

Variable pathways : list Pathway.

(** A row is the last of its name when no other row has that name. *)
Lemma last_named_unique (pathway : Pathway) :
  pathway ∈ pathways →
  (∀ other, other ∈ pathways → name other = name pathway → other = pathway) →
  last_named (name pathway) pathways = Some pathway.
Proof.
  intros Hin Huniq. unfold last_named.
  destruct (last_filter_is_Some (λ other, name other = name pathway) pathways pathway)
    as [other Hlast]; [done..|].
  rewrite Hlast. f_equal.
  apply last_filter_Some in Hlast as [Hother Hname]. by apply Huniq.
Qed.

Lemma last_named_nonempty_unique (pathway : Pathway) :
  pathway ∈ pathways →
  proteins pathway ≠ [] →
  (∀ other, other ∈ pathways → name other = name pathway →
            proteins other ≠ [] → other = pathway) →
  last_named_nonempty (name pathway) pathways = Some pathway.
Proof.
  intros Hin Hne Huniq. unfold last_named_nonempty.
  destruct (last_filter_is_Some
    (λ other, name other = name pathway ∧ proteins other ≠ []) pathways pathway)
    as [other Hlast]; [done..|].
  rewrite Hlast. f_equal.
  apply last_filter_Some in Hlast as [Hother [Hname Hmem]]. by apply Huniq.
Qed.

End UniqueNames.

(** C8: for every pathway row with at least one member, [export_genesets]
    has an entry for its name, which is the set of gene symbols of the
    members of the last row of that name in retrieval order; when no other
    row has that name, it is the set of gene symbols of the pathway's own
    members. *)
Theorem export_genesets_last_wins (self : CompathManager) (pathway : Pathway) :
  pathway ∈ get_all_pathways self →
  proteins pathway ≠ [] →
  (∃ winner,
     last_named (name pathway) (get_all_pathways self) = Some winner
     ∧ winner ∈ get_all_pathways self
     ∧ name winner = name pathway
     ∧ export_genesets self !! name pathway
       = Some (list_to_set (hgnc_symbol <$> proteins winner)))
  ∧ ((∀ other, other ∈ get_all_pathways self →
               name other = name pathway → other = pathway) →
     export_genesets self !! name pathway
     = Some (list_to_set (hgnc_symbol <$> proteins pathway))).
Proof.
  intros Hin _. split.
  - destruct (last_filter_is_Some (λ other, name other = name pathway)
                (get_all_pathways self) pathway) as [winner Hlast]; [done..|].
    exists winner. split; [exact Hlast|].
    destruct (last_filter_Some _ _ _ Hlast) as [Hrow Hname].
    split; [done|]. split; [done|].
    rewrite export_genesets_lookup. unfold last_named. by rewrite Hlast.
  - intros Huniq. rewrite export_genesets_lookup.
    by rewrite (last_named_unique _ _ Hin Huniq).
Qed.

Lemma export_genesets_last_wins_witness :
  PW1 ∈ get_all_pathways example_manager
  ∧ proteins PW1 ≠ []
  ∧ export_genesets example_manager !! "PW1"
    = Some (list_to_set (hgnc_symbol <$> [TP53; BRCA1])).
Proof.
  assert (Hin : PW1 ∈ get_all_pathways example_manager)
    by by_compute.
  assert (Hne : proteins PW1 ≠ []) by discriminate.
  split; [exact Hin|]. split; [exact Hne|].
  apply (proj2 (export_genesets_last_wins example_manager PW1 Hin Hne)).
  intros other Hother Hname.
  apply elem_of_cons in Hother as [->|Hother]; [done|].
  apply list_elem_of_singleton in Hother as ->. discriminate.
Defined.

(** C9: [get_pathway_size_distribution] has an entry exactly for the names
    of the pathway rows with at least one member; the entry is the member
    count of such a row (the last of that name, hence the row itself when
    no other row with members shares its name) and is never 0; a name
    carried only by rows without members has no entry. *)
Theorem size_distribution_skips_empty (self : CompathManager) :
  (∀ k v, get_pathway_size_distribution self !! k = Some v →
     (1 ≤ v)%nat
     ∧ ∃ pathway, last_named_nonempty k (get_all_pathways self) = Some pathway
                  ∧ pathway ∈ get_all_pathways self
                  ∧ name pathway = k
                  ∧ proteins pathway ≠ []
                  ∧ v = length (proteins pathway))
  ∧ (∀ pathway, pathway ∈ get_all_pathways self → proteins pathway ≠ [] →
       is_Some (get_pathway_size_distribution self !! name pathway)
       ∧ ((∀ other, other ∈ get_all_pathways self → name other = name pathway →
                    proteins other ≠ [] → other = pathway) →
          get_pathway_size_distribution self !! name pathway
          = Some (length (proteins pathway))))
  ∧ (∀ k, (∀ pathway, pathway ∈ get_all_pathways self → name pathway = k →
                      proteins pathway = []) →
          get_pathway_size_distribution self !! k = None).
Proof.
  split; [|split].
  - intros k v. rewrite get_pathway_size_distribution_lookup.
    destruct (last_named_nonempty k (get_all_pathways self)) as [pathway|] eqn:Hlast;
      [|discriminate].
    simpl. intros [= <-].
    destruct (last_filter_Some _ _ _ Hlast) as [Hrow [Hname Hne]].
    split.
    + destruct (proteins pathway); [done|simpl; lia].
    + by exists pathway.
  - intros pathway Hin Hne. split.
    + rewrite get_pathway_size_distribution_lookup. apply fmap_is_Some.
      by apply (last_filter_is_Some _ _ pathway).
    + intros Huniq. rewrite get_pathway_size_distribution_lookup.
      by rewrite (last_named_nonempty_unique _ _ Hin Hne Huniq).
  - intros k Hempty. rewrite get_pathway_size_distribution_lookup.
    unfold last_named_nonempty. rewrite last_filter_None; [done|].
    intros pathway Hin [Hname Hne]. by apply Hne, Hempty.
Qed.

Lemma size_distribution_skips_empty_witness :
  get_pathway_size_distribution (manager_on shared_name_store) !! "PW" = Some 1%nat
  ∧ (1 ≤ 1)%nat
  ∧ get_pathway_size_distribution (manager_on shared_name_store) !! "PW0" = None.
Proof.
  assert (Hrun : get_pathway_size_distribution (manager_on shared_name_store) !! "PW"
                 = Some 1%nat) by (vm_compute; reflexivity).
  split; [exact Hrun|]. split.
  - apply (proj1 (proj1 (size_distribution_skips_empty (manager_on shared_name_store))
                    "PW" 1%nat Hrun)).
  - apply (proj2 (proj2 (size_distribution_skips_empty (manager_on shared_name_store)))).
    intros pathway Hin Hname. exfalso. revert pathway Hin Hname.
    apply (proj1 (Forall_forall (λ pathway, name pathway = "PW0" → False) _)).
    by_compute.
Defined.

(** On the store with a shared name the entry of the name is the gene set
    of the later pathway. *)
Lemma shared_name_export :
  export_genesets (manager_on shared_name_store) !! "PW" = Some {["TP53"]}.
Proof. vm_compute. reflexivity. Qed.

(** C10, as stated, fails: a pathway without members whose name a later
    pathway with members shares is exported with that pathway's gene set,
    not with the empty set. *)
Lemma export_genesets_empty_pathway_fails :
  ¬ (∀ (self : CompathManager) (pathway : Pathway),
       pathway ∈ get_all_pathways self →
       proteins pathway = [] →
       export_genesets self !! name pathway = Some ∅).
Proof.
  intros Hclaim.
  specialize (Hclaim (manager_on shared_name_store)
    {| pathway_pk := 1; identifier := "1"; name := "PW"; proteins := [] |}).
  simpl name in Hclaim. rewrite shared_name_export in Hclaim.
  assert (Heq : Some ({["TP53"]} : gset string) = Some ∅).
  { apply Hclaim; [|done]. left. }
  apply (inj Some) in Heq.
  assert (Hin : "TP53" ∈ (∅ : gset string)).
  { rewrite <- Heq. by apply elem_of_singleton. }
  by apply not_elem_of_empty in Hin.
Qed.

(** C10, amended: for every pathway row without members,
    [export_genesets] still has an entry for its name, which is the gene
    set of the last row of that name in retrieval order: the empty set
    when the row itself is that last row, in particular when no other
    row has its name.  [get_pathway_size_distribution], in contrast, has
    no entry for a name that only rows without members carry. *)
Theorem export_genesets_keeps_empty_pathway (self : CompathManager) (pathway : Pathway) :
  pathway ∈ get_all_pathways self →
  proteins pathway = [] →
  is_Some (export_genesets self !! name pathway)
  ∧ (∃ winner,
       last_named (name pathway) (get_all_pathways self) = Some winner
       ∧ winner ∈ get_all_pathways self
       ∧ name winner = name pathway
       ∧ export_genesets self !! name pathway
         = Some (list_to_set (hgnc_symbol <$> proteins winner)))
  ∧ (last_named (name pathway) (get_all_pathways self) = Some pathway →
     export_genesets self !! name pathway = Some ∅)
  ∧ ((∀ other, other ∈ get_all_pathways self →
               name other = name pathway → other = pathway) →
     export_genesets self !! name pathway = Some ∅)
  ∧ ((∀ other, other ∈ get_all_pathways self →
               name other = name pathway → proteins other = []) →
     get_pathway_size_distribution self !! name pathway = None).
Proof.
  intros Hin Hnil.
  assert (Hlast : last_named (name pathway) (get_all_pathways self) = Some pathway →
                  export_genesets self !! name pathway = Some ∅).
  { intros Hlast. rewrite export_genesets_lookup, Hlast. simpl.
    unfold member_symbols. by rewrite Hnil. }
  destruct (last_filter_is_Some (λ other, name other = name pathway)
              (get_all_pathways self) pathway) as [winner Hwinner]; [done..|].
  assert (Hexport : export_genesets self !! name pathway
                    = Some (list_to_set (hgnc_symbol <$> proteins winner))).
  { rewrite export_genesets_lookup. unfold last_named. by rewrite Hwinner. }
  split; [by rewrite Hexport|]. split; [|split; [|split]].
  - exists winner. destruct (last_filter_Some _ _ _ Hwinner) as [Hrow Hname].
    by repeat split.
  - exact Hlast.
  - intros Huniq. by apply Hlast, last_named_unique.
  - intros Hempty. rewrite get_pathway_size_distribution_lookup.
    unfold last_named_nonempty. rewrite last_filter_None; [done|].
    intros other Hother [Hname Hne]. by apply Hne, Hempty.
Qed.

Lemma export_genesets_keeps_empty_pathway_witness :
  PW3 ∈ get_all_pathways (manager_on empty_pathway_store)
  ∧ proteins PW3 = []
  ∧ export_genesets (manager_on empty_pathway_store) !! "PW3" = Some ∅
  ∧ get_pathway_size_distribution (manager_on empty_pathway_store) !! "PW3" = None.
Proof.
  assert (Hin : PW3 ∈ get_all_pathways (manager_on empty_pathway_store))
    by by_compute.
  split; [exact Hin|]. split; [reflexivity|].
  destruct (export_genesets_keeps_empty_pathway
              (manager_on empty_pathway_store) PW3 Hin eq_refl)
    as (_ & _ & _ & Hexport & Hsizes).
  split.
  - apply Hexport. intros other Hother.
    apply (proj1 (Forall_forall (λ other, name other = name PW3 → other = PW3)
                    (get_all_pathways (manager_on empty_pathway_store))));
      [|exact Hother].
    by_compute.
  - apply Hsizes. intros other Hother.
    apply (proj1 (Forall_forall (λ other, name other = name PW3 → proteins other = [])
                    (get_all_pathways (manager_on empty_pathway_store))));
      [|exact Hother].
    by_compute.
Defined.

(** ** The gene distribution *)

Section GeneDistribution.

Implicit Types (c : Counter) (g : string) (pathways : list Pathway).

(** One round of the outer loop of [get_gene_distribution] counts the gene
    symbols of the members of one pathway. *)
Lemma gene_distribution_step c (pathway : Pathway) :
  (if decide (proteins pathway = []) then c
   else foldl (λ c gene, counter_incr (hgnc_symbol gene) c) c (proteins pathway))
  = counter_update c (member_symbols pathway).
Proof.
  unfold counter_update, member_symbols. rewrite foldl_fmap.
  destruct (decide (proteins pathway = [])) as [->|_]; done.
Qed.

Lemma gene_distribution_fold pathways : ∀ c,
  foldl (λ gene_counter pathway,
           if decide (proteins pathway = []) then gene_counter
           else foldl (λ c gene, counter_incr (hgnc_symbol gene) c)
                      gene_counter (proteins pathway))
        c pathways
  = counter_update c (mjoin (member_symbols <$> pathways)).
Proof.
  induction pathways as [|pathway pathways IH]; intros c; [done|].
  simpl foldl. rewrite IH, gene_distribution_step.
  rewrite fmap_cons. simpl mjoin. unfold counter_update. by rewrite foldl_app.
Qed.

Lemma member_rows_eq g pathways :
  length (filter (λ s, s = g) (mjoin (member_symbols <$> pathways)))
  = member_rows g pathways.
Proof.
  unfold member_rows.
  induction pathways as [|pathway pathways IH]; [done|].
  rewrite fmap_cons. simpl mjoin. rewrite filter_app, length_app, IH. done.
Qed.

Lemma member_rows_distinct g pathways :
  Forall (λ pathway, NoDup (member_symbols pathway)) pathways →
  member_rows g pathways = length (pathways_containing g pathways).
Proof.
  unfold member_rows, pathways_containing.
  induction pathways as [|pathway pathways IH]; intros Hall; [done|].
  apply Forall_cons in Hall as [Hnd Hall].
  simpl sum_list_with. rewrite (IH Hall), (length_filter_eq_NoDup _ _ Hnd).
  rewrite filter_cons. by destruct (decide (g ∈ member_symbols pathway)).
Qed.

Lemma get_gene_distribution_eq (self : CompathManager) :
  get_gene_distribution self
  = counter_of (mjoin (member_symbols <$> get_all_pathways self)).
Proof. unfold get_gene_distribution. apply gene_distribution_fold. Qed.

End GeneDistribution.

(** On the store with a shared gene symbol the one pathway is counted
    twice for the symbol. *)
Lemma shared_symbol_distribution :
  get_gene_distribution (manager_on shared_symbol_store) = [("TP53", 2%nat)].
Proof. vm_compute. reflexivity. Qed.

(** C6, as stated, fails: a pathway with two member rows of one gene
    symbol is counted twice for that symbol. *)
Lemma gene_distribution_counts_pathways_fails :
  ¬ (∀ (self : CompathManager) (g : string),
       counter_get g (get_gene_distribution self)
       = length (pathways_containing g (get_all_pathways self))).
Proof.
  intros Hclaim.
  specialize (Hclaim (manager_on shared_symbol_store) "TP53").
  rewrite shared_symbol_distribution in Hclaim.
  vm_compute in Hclaim. discriminate.
Qed.

(** C6, amended: [get_gene_distribution] assigns to every gene symbol the
    number of member rows carrying it, summed over all pathways; where no
    pathway has two member rows with one gene symbol, this is the number
    of pathways having a member with the symbol.  Its keys are distinct
    and are exactly the gene symbols of the members of some pathway, so a
    symbol in no pathway has no entry and counts 0, and a pathway without
    members adds nothing. *)
Theorem gene_distribution_counts (self : CompathManager) (g : string) :
  counter_get g (get_gene_distribution self) = member_rows g (get_all_pathways self)
  ∧ (Forall (λ pathway, NoDup (member_symbols pathway)) (get_all_pathways self) →
     counter_get g (get_gene_distribution self)
     = length (pathways_containing g (get_all_pathways self)))
  ∧ NoDup (get_gene_distribution self).*1
  ∧ (g ∈ (get_gene_distribution self).*1 ↔
     ∃ pathway, pathway ∈ get_all_pathways self ∧ g ∈ member_symbols pathway)
  ∧ ((∀ pathway, pathway ∈ get_all_pathways self → g ∉ member_symbols pathway) →
     counter_get g (get_gene_distribution self) = 0%nat).
Proof.
  rewrite get_gene_distribution_eq.
  assert (Hcount : counter_get g
            (counter_of (mjoin (member_symbols <$> get_all_pathways self)))
          = member_rows g (get_all_pathways self)).
  { by rewrite counter_get_of, member_rows_eq. }
  assert (Hkeys : g ∈ (counter_of (mjoin (member_symbols <$> get_all_pathways self))).*1
                  ↔ ∃ pathway, pathway ∈ get_all_pathways self
                               ∧ g ∈ member_symbols pathway).
  { rewrite counter_of_keys, list_elem_of_join. split.
    - intros (symbols & Hg & Hsymbols).
      apply list_elem_of_fmap in Hsymbols as (pathway & -> & Hin). by exists pathway.
    - intros (pathway & Hin & Hg). exists (member_symbols pathway).
      split; [done|]. by apply list_elem_of_fmap_2. }
  split; [exact Hcount|]. split; [|split; [|split]].
  - intros Hall. by rewrite Hcount, member_rows_distinct.
  - apply counter_of_NoDup.
  - exact Hkeys.
  - intros Hnone. apply counter_get_not_key. rewrite Hkeys.
    intros (pathway & Hin & Hg). by apply (Hnone pathway).
Qed.

Lemma gene_distribution_counts_witness :
  Forall (λ pathway, NoDup (member_symbols pathway)) (get_all_pathways example_manager)
  ∧ counter_get "TP53" (get_gene_distribution example_manager) = 2%nat
  ∧ counter_get "BRCA1" (get_gene_distribution example_manager) = 1%nat.
Proof.
  assert (Hall : Forall (λ pathway, NoDup (member_symbols pathway))
                   (get_all_pathways example_manager))
    by by_compute.
  split; [exact Hall|]. split.
  - rewrite (proj1 (proj2 (gene_distribution_counts example_manager "TP53")) Hall).
    vm_compute. reflexivity.
  - rewrite (proj1 (proj2 (gene_distribution_counts example_manager "BRCA1")) Hall).
    vm_compute. reflexivity.
Defined.

(** * Further properties of the manager *)

(** ** Lookup by identifier *)

Section FilterByKey.

Context {A B : Type} (f : A → B) (P : A → Prop) `{!∀ x, Decision (P x)}.

Lemma filter_none (l : list A) :
  (∀ x, x ∈ l → ¬ P x) → filter P l = [].
Proof.
  intros Hnone. destruct (filter P l) as [|x xs] eqn:Hf; [done|]. exfalso.
  assert (Hx : x ∈ filter P l) by (rewrite Hf; left).
  apply list_elem_of_filter in Hx as [HP Hx]. by apply (Hnone x).
Qed.

(** Where the key [f] takes each value once, the rows with the key of
    [x] are [x] alone. *)
Lemma filter_unique_key (l : list A) (x : A) :
  NoDup (f <$> l) →
  x ∈ l →
  (∀ y, P y ↔ f y = f x) →
  filter P l = [x].
Proof.
  intros Hnd Hx HP. induction l as [|a l IH]; [by apply elem_of_nil in Hx|].
  rewrite fmap_cons in Hnd. apply NoDup_cons in Hnd as [Ha Hnd].
  rewrite filter_cons. destruct (decide (P a)) as [HPa|HPa].
  - apply HP in HPa.
    assert (x = a) as ->.
    { apply elem_of_cons in Hx as [?|Hx]; [done|]. exfalso.
      apply Ha. rewrite HPa. by apply list_elem_of_fmap_2. }
    f_equal. apply filter_none. intros y Hy HPy. apply HP in HPy.
    apply Ha. rewrite <- HPy. by apply list_elem_of_fmap_2.
  - apply elem_of_cons in Hx as [->|Hx].
    + exfalso. apply HPa. by apply HP.
    + by apply IH.
Qed.

Lemma two_members_length (l : list A) (x y : A) :
  x ≠ y → x ∈ l → y ∈ l → (2 ≤ length l)%nat.
Proof.
  intros Hne Hx Hy. destruct l as [|a [|b l]]; simpl; [| |lia].
  - by apply elem_of_nil in Hx.
  - apply list_elem_of_singleton in Hx, Hy. congruence.
Qed.

End FilterByKey.

Section LookupById.

Variables (self : CompathManager) (column : Pathway → string).

Hypothesis Hcolumn : self_pathway_model_identifier_column self = Some column.

Lemma identifier_filter_column (id : string) (pathway : Pathway) :
  _standard_pathway_identifier_filter self id pathway = true ↔ column pathway = id.
Proof.
  unfold _standard_pathway_identifier_filter. rewrite Hcolumn.
  apply bool_decide_eq_true.
Qed.

End LookupById.

(** X1: with an identifier column bound that takes a different value on
    each pathway row, [get_pathway_by_id] finds every row by its own
    identifier, finds only rows of the table that carry the identifier
    asked for, and answers [None], without raising, for an identifier no
    row carries. *)
Theorem get_pathway_by_id_round_trip
    (self : CompathManager) (column : Pathway → string) :
  self_pathway_model_identifier_column self = Some column →
  NoDup (column <$> get_all_pathways self) →
  (∀ pathway, pathway ∈ get_all_pathways self →
     get_pathway_by_id self (column pathway) = ret (Some pathway))
  ∧ (∀ id pathway, get_pathway_by_id self id = ret (Some pathway) →
       pathway ∈ get_all_pathways self ∧ column pathway = id)
  ∧ (∀ id, (∀ pathway, pathway ∈ get_all_pathways self → column pathway ≠ id) →
       get_pathway_by_id self id = ret None).
Proof.
  intros Hcolumn Hnd. split; [|split].
  - intros pathway Hin. unfold get_pathway_by_id.
    rewrite (filter_unique_key column _ _ pathway Hnd Hin); [done|].
    intros other. by rewrite (identifier_filter_column self column Hcolumn).
  - intros id pathway Hget.
    apply get_pathway_by_id_Some in Hget as [Hin Hfilter].
    split; [done|]. by apply (identifier_filter_column self column Hcolumn).
  - intros id Hnone. unfold get_pathway_by_id.
    rewrite filter_none; [done|].
    intros pathway Hin Hfilter. apply (Hnone pathway Hin).
    by apply (identifier_filter_column self column Hcolumn).
Qed.

Lemma get_pathway_by_id_round_trip_witness :
  get_pathway_by_id example_manager "2" = ret (Some PW2)
  ∧ get_pathway_by_id example_manager "7" = ret None.
Proof.
  assert (Hnd : NoDup (identifier <$> get_all_pathways example_manager)) by by_compute.
  destruct (get_pathway_by_id_round_trip example_manager identifier eq_refl Hnd)
    as (Hfind & _ & Hnone).
  split.
  - apply (Hfind PW2). by_compute.
  - apply (Hnone "7"). intros pathway Hin.
    revert pathway Hin.
    apply (proj1 (Forall_forall (λ pathway, identifier pathway ≠ "7")
                    (get_all_pathways example_manager))).
    by_compute.
Defined.

Section EnrichFailure.

Variable self : CompathManager.

(** The loop raises when some item does not resolve to one pathway row. *)
Lemma enrich_unresolved (items : Counter) : ∀ (m : gmap string EnrichmentRecord) id,
  id ∈ items.*1 →
  (∀ pathway, get_pathway_by_id self id ≠ ret (Some pathway)) →
  ∃ e, enrich self items m = raise e.
Proof.
  induction items as [|[id' n] items IH]; intros m id Hin Hnot.
  - by apply elem_of_nil in Hin.
  - rewrite enrich_cons. simpl in Hin.
    destruct (get_pathway_by_id self id') as [e|[pathway|]] eqn:Hget; [by exists e| |by eexists].
    apply elem_of_cons in Hin as [->|Hin].
    + by destruct (Hnot pathway).
    + by apply (IH _ id).
Qed.

Lemma query_gene_set_unresolved (gene_set : list string) (protein : Protein) (id : string) :
  protein ∈ _query_proteins_in_hgnc_list self gene_set →
  id ∈ get_pathways_ids protein →
  (∀ pathway, get_pathway_by_id self id ≠ ret (Some pathway)) →
  ∃ e, query_gene_set self gene_set = raise e.
Proof.
  intros Hp Hid Hnot. rewrite query_gene_set_unfold.
  apply (enrich_unresolved _ ∅ id); [|done].
  apply pathway_counter_keys. by exists protein.
Qed.

End EnrichFailure.

(** X2: when two different pathway rows carry the same identifier,
    [get_pathway_by_id] raises [MultipleResultsFound] for it, and
    [query_gene_set] raises, returning no mapping, for every gene set that
    matches a protein listing that identifier. *)
Theorem get_pathway_by_id_ambiguous
    (self : CompathManager) (column : Pathway → string) (id : string)
    (pathway1 pathway2 : Pathway) :
  self_pathway_model_identifier_column self = Some column →
  pathway1 ≠ pathway2 →
  pathway1 ∈ get_all_pathways self →
  pathway2 ∈ get_all_pathways self →
  column pathway1 = id →
  column pathway2 = id →
  get_pathway_by_id self id = raise MultipleResultsFound
  ∧ ∀ gene_set protein,
      protein ∈ _query_proteins_in_hgnc_list self gene_set →
      id ∈ get_pathways_ids protein →
      ∃ e, query_gene_set self gene_set = raise e.
Proof.
  intros Hcolumn Hne Hin1 Hin2 Hid1 Hid2.
  assert (Hget : get_pathway_by_id self id = raise MultipleResultsFound).
  { unfold get_pathway_by_id.
    destruct (one_or_none_cases
      (filter (λ pathway, _standard_pathway_identifier_filter self id pathway = true)
         (session_query (session self) (self_pathway_model self))))
      as [[Hrows _]|[[row [Hrows _]]|[_ Heq]]]; [exfalso..|done].
    - assert (Hmem : pathway1 ∈ filter
        (λ pathway, _standard_pathway_identifier_filter self id pathway = true)
        (session_query (session self) (self_pathway_model self))).
      { apply list_elem_of_filter. split; [|done].
        by apply (identifier_filter_column self column Hcolumn). }
      rewrite Hrows in Hmem. by apply elem_of_nil in Hmem.
    - assert (Hlen : (2 ≤ length (filter
        (λ pathway, _standard_pathway_identifier_filter self id pathway = true)
        (session_query (session self) (self_pathway_model self))))%nat).
      { apply (two_members_length _ pathway1 pathway2 Hne);
          apply list_elem_of_filter; (split; [|done]);
          by apply (identifier_filter_column self column Hcolumn). }
      rewrite Hrows in Hlen. simpl in Hlen. lia. }
  split; [exact Hget|].
  intros gene_set protein Hp Hlisted.
  apply (query_gene_set_unresolved self gene_set protein id Hp Hlisted).
  intros pathway. rewrite Hget. discriminate.
Qed.

Lemma get_pathway_by_id_ambiguous_witness :
  get_pathway_by_id (manager_on duplicate_identifier_store) "1"
    = raise MultipleResultsFound
  ∧ ∃ e, query_gene_set (manager_on duplicate_identifier_store) ["BRCA1"] = raise e.
Proof.
  destruct (get_pathway_by_id_ambiguous (manager_on duplicate_identifier_store)
              identifier "1" PW1 PW1_copy eq_refl)
    as [Hget Hquery]; [discriminate|by_compute|by_compute|reflexivity|reflexivity|].
  split; [exact Hget|].
  apply (Hquery ["BRCA1"] BRCA1); by_compute.
Defined.

(** X3: [query_gene_set] returns a mapping exactly when every identifier
    listed by a matched protein resolves to one pathway row; otherwise it
    raises. *)
Theorem query_gene_set_returns_iff (self : CompathManager) (gene_set : list string) :
  (∃ r, query_gene_set self gene_set = ret r)
  ↔ (∀ protein id,
       protein ∈ _query_proteins_in_hgnc_list self gene_set →
       id ∈ get_pathways_ids protein →
       ∃ pathway, get_pathway_by_id self id = ret (Some pathway)).
Proof.
  split.
  - intros [r Hrun] protein id Hp Hid.
    assert (Hkey : id ∈ (pathway_counter self gene_set).*1).
    { apply pathway_counter_keys. by exists protein. }
    rewrite query_gene_set_unfold in Hrun.
    destruct (enrich_ret self _ _ _ (counter_of_NoDup _) Hrun id) as [_ Hin].
    destruct (Hin _ (counter_get_key _ _ Hkey)) as (pathway & Hget & _).
    by exists pathway.
  - apply query_gene_set_returns.
Qed.

Lemma query_gene_set_returns_iff_witness :
  (∃ r, query_gene_set example_manager ["TP53"; "BRCA1"] = ret r)
  ∧ ¬ (∃ r, query_gene_set (manager_on dangling_store) ["TP53"] = ret r).
Proof.
  split.
  - apply (proj2 (query_gene_set_returns_iff example_manager ["TP53"; "BRCA1"])).
    intros protein id Hp Hid.
    assert (Hall : Forall (λ protein, Forall (λ id,
              get_pathway_by_id example_manager id
              = ret (head (filter (λ pathway, identifier pathway = id) [PW1; PW2]))
              ∧ is_Some (head (filter (λ pathway, identifier pathway = id) [PW1; PW2])))
              (get_pathways_ids protein))
            (_query_proteins_in_hgnc_list example_manager ["TP53"; "BRCA1"]))
      by by_compute.
    rewrite Forall_forall in Hall. specialize (Hall protein Hp).
    rewrite Forall_forall in Hall. destruct (Hall id Hid) as [Hget [pathway Hhead]].
    exists pathway. by rewrite Hget, Hhead.
  - intros Hret.
    destruct (proj1 (query_gene_set_returns_iff (manager_on dangling_store) ["TP53"])
                Hret
                {| protein_pk := 1; hgnc_symbol := "TP53";
                   get_pathways_ids := ["1"; "9"] |} "9")
      as [pathway Hget]; [by_compute|by_compute|].
    vm_compute in Hget. discriminate.
Defined.

(** ** A manager without identifier column *)

Lemma mjoin_nils {A : Type} (ls : list (list A)) :
  Forall (λ l, l = []) ls → mjoin ls = [].
Proof.
  induction 1 as [|l ls -> _ IH]; [done|]. simpl. exact IH.
Qed.

(** X4: a manager class that binds no identifier column is constructed
    all the same, and then [get_pathway_by_id] answers [None] for every
    identifier: [query_gene_set] returns the empty mapping when no matched
    protein lists a pathway, and raises, on asking the absent pathway for
    its gene set, as soon as one does. *)
Theorem no_identifier_column_surfaces_at_query
    (cls : ManagerClass) (connection : Session) (self : CompathManager) :
  pathway_model_identifier_column cls = None →
  __init__ cls connection = ret self →
  (∀ id, get_pathway_by_id self id = ret None)
  ∧ (∀ gene_set,
       (∀ protein, protein ∈ _query_proteins_in_hgnc_list self gene_set →
                   get_pathways_ids protein = []) →
       query_gene_set self gene_set = ret ∅)
  ∧ (∀ gene_set protein id,
       protein ∈ _query_proteins_in_hgnc_list self gene_set →
       id ∈ get_pathways_ids protein →
       query_gene_set self gene_set = raise none_has_no_gene_set).
Proof.
  intros Hnone Hinit.
  assert (Hcolumn : self_pathway_model_identifier_column self = None).
  { unfold __init__ in Hinit.
    destruct (pathway_model cls); [|discriminate].
    destruct (protein_model cls); [|discriminate].
    injection Hinit as <-. exact Hnone. }
  assert (Hget : ∀ id, get_pathway_by_id self id = ret None).
  { intros id. unfold get_pathway_by_id.
    rewrite filter_none; [done|].
    intros pathway _. unfold _standard_pathway_identifier_filter.
    rewrite Hcolumn. discriminate. }
  split; [exact Hget|]. split.
  - intros gene_set Hempty. rewrite query_gene_set_unfold. unfold pathway_counter.
    rewrite mjoin_nils; [done|].
    apply Forall_fmap, Forall_forall. intros protein Hp. by apply Hempty.
  - intros gene_set protein id Hp Hid. rewrite query_gene_set_unfold.
    apply (enrich_raise_attribute self _ ∅ id).
    + apply pathway_counter_keys. by exists protein.
    + apply Hget.
    + intros k _. rewrite Hget. discriminate.
Qed.

Lemma no_identifier_column_surfaces_at_query_witness :
  __init__ NoIdentifierManager example_store = ret (manager_without_column example_store)
  ∧ get_pathway_by_id (manager_without_column example_store) "1" = ret None
  ∧ query_gene_set (manager_without_column example_store) ["MYC"] = ret ∅
  ∧ query_gene_set (manager_without_column example_store) ["TP53"]
    = raise none_has_no_gene_set.
Proof.
  split; [reflexivity|].
  destruct (no_identifier_column_surfaces_at_query NoIdentifierManager example_store
              (manager_without_column example_store) eq_refl eq_refl)
    as (Hget & Hempty & Hraise).
  split; [apply Hget|]. split.
  - apply Hempty. intros protein Hp. exfalso.
    revert protein Hp.
    apply (proj1 (Forall_forall (λ _, False)
      (_query_proteins_in_hgnc_list (manager_without_column example_store) ["MYC"]))).
    by_compute.
  - apply (Hraise ["TP53"] TP53 "1"); by_compute.
Defined.

(** ** Lookup by name *)

Section LookupByName.

Variable self : CompathManager.

Lemma get_pathway_by_name_head (pathway_name : string) :
  get_pathway_by_name self pathway_name
  = head (filter (λ pathway, name pathway = pathway_name) (get_all_pathways self)).
Proof.
  unfold get_pathway_by_name, get_all_pathways. by destruct (filter _ _).
Qed.

End LookupByName.

(** X5: [get_pathway_by_name] never raises and returns the first row of
    the given name in retrieval order: a row it returns is in the table
    and has the name, a row of the name preceded by no row of that name is
    the one returned, and the answer is [None] exactly when no row has the
    name. *)
Theorem get_pathway_by_name_first_wins (self : CompathManager) (pathway_name : string) :
  (∀ pathway, get_pathway_by_name self pathway_name = Some pathway →
     pathway ∈ get_all_pathways self ∧ name pathway = pathway_name)
  ∧ (∀ before pathway after,
       get_all_pathways self = (before ++ pathway :: after)%list →
       name pathway = pathway_name →
       Forall (λ other, name other ≠ pathway_name) before →
       get_pathway_by_name self pathway_name = Some pathway)
  ∧ (get_pathway_by_name self pathway_name = None
     ↔ ∀ pathway, pathway ∈ get_all_pathways self → name pathway ≠ pathway_name).
Proof.
  rewrite get_pathway_by_name_head. split; [|split].
  - intros pathway Hhead. apply head_Some_elem_of, list_elem_of_filter in Hhead. tauto.
  - intros before pathway after -> Hname Hbefore.
    rewrite filter_app, filter_cons, decide_True by done.
    rewrite filter_none; [done|].
    intros other Hother. rewrite Forall_forall in Hbefore. by apply Hbefore.
  - rewrite head_None. split.
    + intros Hnil pathway Hin Hname.
      by apply (filter_nil_not_elem_of _ _ pathway Hnil).
    + intros Hnone. by apply filter_none.
Qed.

Lemma get_pathway_by_name_first_wins_witness :
  get_pathway_by_name (manager_on shared_name_store) "PW"
  = Some {| pathway_pk := 1; identifier := "1"; name := "PW"; proteins := [] |}.
Proof.
  apply (proj1 (proj2 (get_pathway_by_name_first_wins (manager_on shared_name_store) "PW"))
           [] _ [ {| pathway_pk := 2; identifier := "2"; name := "PW";
                     proteins := [ {| protein_pk := 1; hgnc_symbol := "TP53";
                                      get_pathways_ids := ["2"] |} ] |} ]).
  - reflexivity.
  - reflexivity.
  - constructor.
Defined.

(** X6: [export_genesets] has an entry for exactly the names
    [get_pathway_by_name] finds a pathway for; for a name carried by one
    row only, the entry is the gene set of the pathway
    [get_pathway_by_name] returns. *)
Theorem export_genesets_agrees_with_get_pathway_by_name
    (self : CompathManager) (pathway_name : string) :
  (is_Some (export_genesets self !! pathway_name)
   ↔ is_Some (get_pathway_by_name self pathway_name))
  ∧ (∀ pathway,
       pathway ∈ get_all_pathways self →
       name pathway = pathway_name →
       (∀ other, other ∈ get_all_pathways self →
                 name other = pathway_name → other = pathway) →
       get_pathway_by_name self pathway_name = Some pathway
       ∧ export_genesets self !! pathway_name = Some (get_gene_set pathway)).
Proof.
  rewrite export_genesets_lookup, get_pathway_by_name_head. unfold last_named.
  split.
  - rewrite fmap_is_Some, last_is_Some, head_is_Some. done.
  - intros pathway Hin Hname Huniq. subst pathway_name. split.
    + destruct (head (filter (λ other, name other = name pathway)
                        (get_all_pathways self))) as [first|] eqn:Hhead.
      * f_equal. apply head_Some_elem_of, list_elem_of_filter in Hhead as [Hn Hfirst].
        by apply Huniq.
      * apply head_None in Hhead.
        by destruct (filter_nil_not_elem_of _ _ pathway Hhead).
    + fold (last_named (name pathway) (get_all_pathways self)).
      by rewrite (last_named_unique _ _ Hin Huniq).
Qed.

Lemma export_genesets_agrees_with_get_pathway_by_name_witness :
  get_pathway_by_name example_manager "PW2" = Some PW2
  ∧ export_genesets example_manager !! "PW2" = Some (get_gene_set PW2).
Proof.
  apply (proj2 (export_genesets_agrees_with_get_pathway_by_name example_manager "PW2")
           PW2).
  - by_compute.
  - reflexivity.
  - intros other Hother. revert other Hother.
    apply (proj1 (Forall_forall (λ other, name other = "PW2" → other = PW2)
                    (get_all_pathways example_manager))).
    by_compute.
Defined.

(** ** All gene symbols *)

Section AllSymbols.

Variable self : CompathManager.

Lemma get_all_hgnc_symbols_elem (g : string) :
  g ∈ get_all_hgnc_symbols self
  ↔ ∃ pathway, pathway ∈ get_all_pathways self ∧ g ∈ member_symbols pathway.
Proof.
  unfold get_all_hgnc_symbols, member_symbols.
  rewrite elem_of_list_to_set, list_elem_of_bind. split.
  - intros (pathway & Hg & Hin). exists pathway. split; [done|].
    apply list_elem_of_bind in Hg as (gene & Hg & Hgene).
    destruct (decide (proteins pathway = [])); [by apply elem_of_nil in Hg|].
    apply list_elem_of_singleton in Hg as ->. by apply list_elem_of_fmap_2.
  - intros (pathway & Hin & Hg). exists pathway. split; [|done].
    apply list_elem_of_fmap in Hg as (gene & -> & Hgene).
    apply list_elem_of_bind. exists gene. split; [|done].
    rewrite decide_False; [by apply list_elem_of_singleton|].
    intros Hnil. rewrite Hnil in Hgene. by apply elem_of_nil in Hgene.
Qed.

End AllSymbols.

(** X7: a gene symbol is in [get_all_hgnc_symbols] exactly when some
    pathway has a member carrying it, which is exactly when
    [get_gene_distribution] counts it at least once. *)
Theorem get_all_hgnc_symbols_are_counted (self : CompathManager) (g : string) :
  (g ∈ get_all_hgnc_symbols self
   ↔ ∃ pathway protein,
       pathway ∈ get_all_pathways self ∧ protein ∈ proteins pathway
       ∧ hgnc_symbol protein = g)
  ∧ (g ∈ get_all_hgnc_symbols self
     ↔ (1 ≤ counter_get g (get_gene_distribution self))%nat).
Proof.
  split.
  - rewrite get_all_hgnc_symbols_elem. split.
    + intros (pathway & Hin & Hg).
      apply list_elem_of_fmap in Hg as (protein & -> & Hprotein).
      by exists pathway, protein.
    + intros (pathway & protein & Hin & Hprotein & <-). exists pathway.
      split; [done|]. by apply list_elem_of_fmap_2.
  - rewrite get_all_hgnc_symbols_elem, get_gene_distribution_eq.
    assert (Hkeys : g ∈ (counter_of (mjoin (member_symbols <$> get_all_pathways self))).*1
                    ↔ ∃ pathway, pathway ∈ get_all_pathways self
                                 ∧ g ∈ member_symbols pathway).
    { rewrite counter_of_keys, list_elem_of_join. split.
      - intros (symbols & Hg & Hsymbols).
        apply list_elem_of_fmap in Hsymbols as (pathway & -> & Hin). by exists pathway.
      - intros (pathway & Hin & Hg). exists (member_symbols pathway).
        split; [done|]. by apply list_elem_of_fmap_2. }
    rewrite <- Hkeys. rewrite counter_get_of. rewrite counter_of_keys.
    set (symbols := mjoin (member_symbols <$> get_all_pathways self)).
    split.
    + intros Hg.
      assert (Hmem : g ∈ filter (λ s, s = g) symbols) by by apply list_elem_of_filter.
      destruct (filter (λ s, s = g) symbols); [by apply elem_of_nil in Hmem|simpl; lia].
    + intros Hlen.
      destruct (filter (λ s, s = g) symbols) as [|s rest] eqn:Hf; [simpl in Hlen; lia|].
      assert (Hmem : s ∈ filter (λ s, s = g) symbols) by (rewrite Hf; left).
      apply list_elem_of_filter in Hmem as [-> Hmem]. done.
Qed.

(** X8: every gene set [export_genesets] exports and every gene set in a
    record returned by [query_gene_set] is included in
    [get_all_hgnc_symbols]. *)
Theorem gene_sets_within_all_symbols (self : CompathManager) :
  (∀ pathway_name genes,
     export_genesets self !! pathway_name = Some genes →
     genes ⊆ get_all_hgnc_symbols self)
  ∧ (∀ gene_set r id rec,
       query_gene_set self gene_set = ret r →
       r !! id = Some rec →
       pathway_gene_set rec ⊆ get_all_hgnc_symbols self).
Proof.
  assert (Hrow : ∀ pathway, pathway ∈ get_all_pathways self →
                   (list_to_set (member_symbols pathway) : gset string)
                   ⊆ get_all_hgnc_symbols self).
  { intros pathway Hin g Hg. apply elem_of_list_to_set in Hg.
    apply get_all_hgnc_symbols_elem. by exists pathway. }
  split.
  - intros pathway_name genes. rewrite export_genesets_lookup.
    destruct (last_named pathway_name (get_all_pathways self)) as [pathway|] eqn:Hlast;
      [|discriminate].
    simpl. intros [= <-]. apply Hrow.
    by apply (last_filter_Some _ _ _ Hlast).
  - intros gene_set r id rec Hrun Hrec.
    destruct (query_gene_set_lookup self _ _ _ _ Hrun Hrec) as (pathway & Hget & -> & _).
    simpl. apply Hrow. by apply (get_pathway_by_id_Some self id).
Qed.

Lemma gene_sets_within_all_symbols_witness :
  ({["TP53"]} : gset string) ⊆ get_all_hgnc_symbols example_manager.
Proof.
  apply (proj1 (gene_sets_within_all_symbols example_manager) "PW2").
  vm_compute. reflexivity.
Defined.

(** ** An unpopulated store *)

(** X9: [is_populated] holds exactly when there is a pathway row, which
    is exactly when [export_genesets] is not empty.  On an unpopulated
    store the size distribution, the exported gene sets, the gene
    distribution and the set of all gene symbols are empty, and both
    pathway lookups answer [None]. *)
Theorem is_populated_spec (self : CompathManager) :
  (is_populated self = true ↔ get_all_pathways self ≠ [])
  ∧ (is_populated self = true ↔ export_genesets self ≠ ∅)
  ∧ (is_populated self = false →
     get_pathway_size_distribution self = ∅
     ∧ export_genesets self = ∅
     ∧ get_gene_distribution self = []
     ∧ get_all_hgnc_symbols self = ∅
     ∧ (∀ id, get_pathway_by_id self id = ret None)
     ∧ (∀ pathway_name, get_pathway_by_name self pathway_name = None)).
Proof.
  assert (Hpop : is_populated self = true ↔ get_all_pathways self ≠ []).
  { unfold is_populated, get_all_pathways. rewrite bool_decide_eq_true.
    destruct (session_query (session self) (self_pathway_model self)); simpl.
    - split; [lia|done].
    - split; [done|lia]. }
  split; [exact Hpop|]. split.
  - rewrite Hpop. split.
    + intros Hne Hempty.
      destruct (get_all_pathways self) as [|pathway pathways] eqn:Hall; [done|].
      assert (Hsome : is_Some (export_genesets self !! name pathway)).
      { rewrite export_genesets_lookup. apply fmap_is_Some.
        apply (last_filter_is_Some _ _ pathway); [|done]. rewrite Hall. left. }
      rewrite Hempty, lookup_empty in Hsome. by destruct Hsome.
    + intros Hne Hnil. apply Hne. unfold export_genesets.
      unfold get_all_pathways in Hnil. by rewrite Hnil.
  - intros Hnot.
    assert (Hnil : get_all_pathways self = []).
    { destruct (decide (get_all_pathways self = [])) as [|Hne]; [done|].
      apply Hpop in Hne. congruence. }
    unfold get_pathway_size_distribution, export_genesets, get_gene_distribution,
      get_all_hgnc_symbols, get_pathway_by_id, get_pathway_by_name,
      get_all_pathways in *.
    rewrite Hnil. repeat split.
Qed.

Lemma is_populated_spec_witness :
  is_populated example_manager = true
  ∧ is_populated (manager_on {| pathway_table := []; protein_table := [TP53] |}) = false
  ∧ export_genesets (manager_on {| pathway_table := []; protein_table := [TP53] |}) = ∅.
Proof.
  split; [|split].
  - apply (proj1 (is_populated_spec example_manager)). discriminate.
  - reflexivity.
  - apply (proj2 (proj2 (is_populated_spec
      (manager_on {| pathway_table := []; protein_table := [TP53] |})))).
    reflexivity.
Defined.

(** ** The shape of the enrichment records *)

Lemma size_list_to_set_le (l : list string) :
  (size (list_to_set l : gset string) ≤ length l)%nat.
Proof.
  unfold size, set_size. simpl.
  apply submseteq_length, NoDup_submseteq; [apply NoDup_elements|].
  intros x Hx. by apply elem_of_elements, elem_of_list_to_set in Hx.
Qed.

(** X11: a record [query_gene_set] returns at a key carries the key as
    its [pathway_id], the name and the gene set of the pathway row
    [get_pathway_by_id] finds for the key, the cardinality of that gene
    set as its [pathway_size], and as [mapped_proteins] the number of
    times the matched proteins list the key; when no protein lists an
    identifier twice this is the number of matched protein rows listing
    the key, which is at most the number of matched rows. *)
Theorem query_gene_set_record
    (self : CompathManager) (gene_set : list string)
    (r : gmap string EnrichmentRecord) (id : string) (rec : EnrichmentRecord) :
  query_gene_set self gene_set = ret r →
  r !! id = Some rec →
  pathway_id rec = id
  ∧ pathway_size rec = size (pathway_gene_set rec)
  ∧ (∃ pathway,
       get_pathway_by_id self id = ret (Some pathway)
       ∧ pathway ∈ get_all_pathways self
       ∧ pathway_name rec = name pathway
       ∧ pathway_gene_set rec = list_to_set (hgnc_symbol <$> proteins pathway))
  ∧ mapped_proteins rec
    = length (filter (λ listed, listed = id)
                (mjoin (get_pathways_ids <$> _query_proteins_in_hgnc_list self gene_set)))
  ∧ (pathways_ids_distinct self →
     mapped_proteins rec
     = length (filter (λ protein, id ∈ get_pathways_ids protein)
                 (_query_proteins_in_hgnc_list self gene_set))
     ∧ (mapped_proteins rec ≤ length (_query_proteins_in_hgnc_list self gene_set))%nat).
Proof.
  intros Hrun Hrec.
  destruct (query_gene_set_lookup self _ _ _ _ Hrun Hrec) as (pathway & Hget & -> & _).
  simpl. split; [done|]. split; [done|]. split; [|split].
  - exists pathway. split; [done|]. split; [|done].
    by apply (get_pathway_by_id_Some self id).
  - apply pathway_counter_get.
  - intros Hdistinct. rewrite pathway_counter_get, listings_are_rows
      by (by apply Forall_matched).
    split; [done|]. apply length_filter.
Qed.

Lemma query_gene_set_record_witness :
  pathways_ids_distinct example_manager
  ∧ mapped_proteins (record_for "1" 2 PW1)
    = length (filter (λ protein, "1" ∈ get_pathways_ids protein)
                (_query_proteins_in_hgnc_list example_manager ["TP53"; "BRCA1"])).
Proof.
  assert (Hd : pathways_ids_distinct example_manager) by by_compute.
  split; [exact Hd|].
  apply (query_gene_set_record example_manager ["TP53"; "BRCA1"]
           (<["1" := record_for "1" 2 PW1]> (<["2" := record_for "2" 1 PW2]> ∅))
           "1" (record_for "1" 2 PW1)); [vm_compute; reflexivity..|exact Hd].
Defined.

(** ** Growing the gene set *)

Section Monotone.

Variable self : CompathManager.

Lemma listings_mono (id : string) (gene_set1 gene_set2 : list string)
    (rows : list Protein) :
  (∀ s, s ∈ gene_set1 → s ∈ gene_set2) →
  (length (filter (λ listed, listed = id)
     (mjoin (get_pathways_ids <$>
               filter (λ protein, hgnc_symbol protein ∈ gene_set1) rows)))
   ≤ length (filter (λ listed, listed = id)
       (mjoin (get_pathways_ids <$>
                 filter (λ protein, hgnc_symbol protein ∈ gene_set2) rows))))%nat.
Proof.
  intros Hsub. induction rows as [|protein rows IH]; [done|].
  rewrite !filter_cons.
  destruct (decide (hgnc_symbol protein ∈ gene_set1)) as [H1|H1].
  - rewrite decide_True by by apply Hsub.
    rewrite !fmap_cons. simpl mjoin. rewrite !filter_app, !length_app. lia.
  - destruct (decide (hgnc_symbol protein ∈ gene_set2)) as [H2|H2]; [|done].
    rewrite fmap_cons. simpl mjoin. rewrite filter_app, length_app. lia.
Qed.

End Monotone.

(** X12: growing the gene set only adds: when [query_gene_set] returns
    for a gene set and for a larger one, every key of the first mapping is
    a key of the second, with the same pathway name, size and gene set and
    with at least as many mapped proteins. *)
Theorem query_gene_set_monotone
    (self : CompathManager) (gene_set1 gene_set2 : list string)
    (r1 r2 : gmap string EnrichmentRecord) (id : string) (rec1 : EnrichmentRecord) :
  (∀ s, s ∈ gene_set1 → s ∈ gene_set2) →
  query_gene_set self gene_set1 = ret r1 →
  query_gene_set self gene_set2 = ret r2 →
  r1 !! id = Some rec1 →
  ∃ rec2,
    r2 !! id = Some rec2
    ∧ (mapped_proteins rec1 ≤ mapped_proteins rec2)%nat
    ∧ pathway_name rec2 = pathway_name rec1
    ∧ pathway_size rec2 = pathway_size rec1
    ∧ pathway_gene_set rec2 = pathway_gene_set rec1.
Proof.
  intros Hsub Hrun1 Hrun2 Hrec1.
  destruct (query_gene_set_lookup self _ _ _ _ Hrun1 Hrec1)
    as (pathway & Hget & -> & Hkey1).
  assert (Hkey2 : id ∈ (pathway_counter self gene_set2).*1).
  { apply pathway_counter_keys in Hkey1 as (protein & Hp & Hid).
    apply pathway_counter_keys. exists protein. split; [|done].
    unfold _query_proteins_in_hgnc_list in *.
    apply list_elem_of_filter in Hp as [Hsym Hp].
    apply list_elem_of_filter. split; [by apply Hsub|done]. }
  rewrite query_gene_set_unfold in Hrun2.
  destruct (enrich_ret self _ _ _ (counter_of_NoDup _) Hrun2 id) as [_ Hin].
  destruct (Hin _ (counter_get_key _ _ Hkey2)) as (pathway2 & Hget2 & Hrec2).
  assert (pathway2 = pathway) as -> by congruence.
  eexists. split; [exact Hrec2|]. simpl. split; [|done].
  rewrite !pathway_counter_get. by apply listings_mono.
Qed.

Lemma query_gene_set_monotone_witness :
  ∃ rec2,
    (<["1" := record_for "1" 2 PW1]> (<["2" := record_for "2" 1 PW2]> ∅)
       : gmap string EnrichmentRecord) !! "1" = Some rec2
    ∧ (mapped_proteins (record_for "1" 1 PW1) ≤ mapped_proteins rec2)%nat
    ∧ pathway_name rec2 = pathway_name (record_for "1" 1 PW1)
    ∧ pathway_size rec2 = pathway_size (record_for "1" 1 PW1)
    ∧ pathway_gene_set rec2 = pathway_gene_set (record_for "1" 1 PW1).
Proof.
  apply (query_gene_set_monotone example_manager ["BRCA1"] ["TP53"; "BRCA1"]
           {["1" := record_for "1" 1 PW1]}).
  - intros s Hs. by right.
  - vm_compute. reflexivity.
  - vm_compute. reflexivity.
  - vm_compute. reflexivity.
Defined.

(** ** Totals of the gene distribution *)

Section CounterTotals.

Implicit Types (c : Counter) (k : string) (l : list string).

Lemma counter_incr_total k c :
  sum_list (counter_incr k c).*2 = S (sum_list c.*2).
Proof.
  induction c as [|[k' n] c IH]; csimpl; [done|].
  destruct (decide (k = k')); csimpl; [done|]. rewrite IH. lia.
Qed.

Lemma counter_update_total c l :
  sum_list (counter_update c l).*2 = (sum_list c.*2 + length l)%nat.
Proof.
  unfold counter_update. revert c.
  induction l as [|k l IH]; intros c; csimpl; [lia|].
  rewrite IH, counter_incr_total. lia.
Qed.

Lemma counter_incr_positive k c :
  Forall (λ item, (1 ≤ item.2)%nat) c →
  Forall (λ item, (1 ≤ item.2)%nat) (counter_incr k c).
Proof.
  induction c as [|[k' n] c IH]; simpl; intros Hpos.
  - by repeat constructor.
  - apply Forall_cons in Hpos as [Hn Hpos].
    destruct (decide (k = k')); constructor; simpl in *; auto with lia.
Qed.

Lemma counter_update_positive c l :
  Forall (λ item, (1 ≤ item.2)%nat) c →
  Forall (λ item, (1 ≤ item.2)%nat) (counter_update c l).
Proof.
  unfold counter_update. revert c.
  induction l as [|k l IH]; intros c Hpos; simpl; [done|].
  by apply IH, counter_incr_positive.
Qed.

End CounterTotals.

Lemma length_member_symbols (pathways : list Pathway) :
  length (mjoin (member_symbols <$> pathways))
  = sum_list_with (λ pathway, length (proteins pathway)) pathways.
Proof.
  induction pathways as [|pathway pathways IH]; [done|].
  rewrite fmap_cons. simpl. rewrite length_app, IH.
  unfold member_symbols. by rewrite length_fmap.
Qed.

(** X13: [get_gene_distribution] holds no entry with count 0, and its
    counts add up to the number of member rows of all pathways. *)
Theorem gene_distribution_totals (self : CompathManager) :
  Forall (λ item, (1 ≤ item.2)%nat) (get_gene_distribution self)
  ∧ sum_list (get_gene_distribution self).*2
    = sum_list_with (λ pathway, length (proteins pathway)) (get_all_pathways self).
Proof.
  rewrite get_gene_distribution_eq. unfold counter_of. split.
  - apply counter_update_positive. constructor.
  - rewrite counter_update_total. simpl. apply length_member_symbols.
Qed.

(** ** Sizes against exported gene sets *)

Section LastOfBoth.

Context {A : Type} (P Q : A → Prop).
Context `{!∀ x, Decision (P x), !∀ x, Decision (Q x)}.

(** The last row passing [P] is, when it passes [Q] too, the last row
    passing both. *)
Lemma last_filter_both (l : list A) (x y : A) :
  last (filter P l) = Some x →
  last (filter (λ a, P a ∧ Q a) l) = Some y →
  Q x →
  x = y.
Proof.
  induction l as [|a l IH] using rev_ind; [done|].
  rewrite !filter_app, !filter_cons, !filter_nil.
  destruct (decide (P a)) as [HP|HP].
  - rewrite last_snoc. intros [= <-] Hy HQ.
    rewrite decide_True in Hy by done. rewrite last_snoc in Hy. congruence.
  - rewrite decide_False by tauto. rewrite !app_nil_r. exact IH.
Qed.

End LastOfBoth.

(** X14: whatever [get_pathway_size_distribution] has an entry for,
    [export_genesets] has one too, and the exported gene set has at most
    as many symbols as the size distribution counts members. *)
Theorem size_distribution_bounds_export
    (self : CompathManager) (pathway_name : string) (members : nat) :
  get_pathway_size_distribution self !! pathway_name = Some members →
  ∃ genes, export_genesets self !! pathway_name = Some genes
           ∧ (size genes ≤ members)%nat.
Proof.
  rewrite get_pathway_size_distribution_lookup, export_genesets_lookup.
  destruct (last_named_nonempty pathway_name (get_all_pathways self))
    as [counted|] eqn:Hcounted; [|discriminate].
  simpl. intros [= <-].
  destruct (last_filter_Some _ _ _ Hcounted) as [Hin [Hname Hne]].
  destruct (last_filter_is_Some (λ other, name other = pathway_name)
              (get_all_pathways self) counted Hin Hname) as [exported Hexported].
  unfold last_named. rewrite Hexported. simpl. eexists. split; [done|].
  destruct (decide (proteins exported = [])) as [Hnil|Hmembers].
  - unfold member_symbols. rewrite Hnil. vm_compute. lia.
  - rewrite (last_filter_both _ (λ other, proteins other ≠ []) _ _ _
               Hexported Hcounted Hmembers).
    etrans; [apply size_list_to_set_le|].
    unfold member_symbols. by rewrite length_fmap.
Qed.

Lemma size_distribution_bounds_export_witness :
  ∃ genes, export_genesets (manager_on shared_symbol_store) !! "PW1" = Some genes
           ∧ (size genes ≤ 2)%nat.
Proof.
  apply (size_distribution_bounds_export (manager_on shared_symbol_store) "PW1" 2).
  vm_compute. reflexivity.
Defined.

(** ** More on the lookup by name pattern *)

Lemma is_substring_empty (s : string) : is_substring "" s = true.
Proof. by destruct s. Qed.

Lemma filter_all {A : Type} (P : A → Prop) `{!∀ x, Decision (P x)} (l : list A) :
  (∀ x, x ∈ l → P x) → filter P l = l.
Proof.
  induction l as [|x l IH]; intros Hall; [done|].
  rewrite filter_cons, decide_True by (apply Hall; left).
  f_equal. apply IH. intros y Hy. apply Hall. by right.
Qed.

(** X15: for every backend, the empty query selects every pathway row;
    a positive limit returns rows of the table in retrieval order; a
    limit that is at least the number of matches returns the same as no
    limit; and of two positive limits the smaller one returns a prefix of
    what the larger one returns. *)
Theorem query_pathway_by_name_prefixes
    (backend : Backend) (self : CompathManager) (query : string) :
  query_pathway_by_name self "" None = ret (get_all_pathways self)
  ∧ (∀ n, (0 < n)%Z →
       ∃ rows, query_pathway_by_name self query (Some n) = ret rows
               ∧ rows `sublist_of` get_all_pathways self
               ∧ Forall (λ pathway, contains query (name pathway) = true) rows)
  ∧ (∀ n, (0 < n)%Z → (Z.of_nat (length (name_matches self query)) ≤ n)%Z →
       query_pathway_by_name self query (Some n)
       = query_pathway_by_name self query None)
  ∧ (∀ n m, (0 < n)%Z → (n ≤ m)%Z →
       ∃ fewer more,
         query_pathway_by_name self query (Some n) = ret fewer
         ∧ query_pathway_by_name self query (Some m) = ret more
         ∧ fewer `prefix_of` more).
Proof.
  split; [|split; [|split]].
  - rewrite query_pathway_by_name_no_limit. f_equal.
    unfold name_matches. apply filter_all.
    intros pathway _. apply contains_literal, is_substring_empty.
  - intros n Hn. rewrite query_pathway_by_name_positive by done.
    eexists. split; [done|]. split.
    + etrans; [apply sublist_take|]. apply sublist_filter.
    + apply Forall_take, Forall_forall. intros pathway Hin.
      by apply list_elem_of_filter in Hin as [Hmatch _].
  - intros n Hn Hlen. rewrite query_pathway_by_name_positive by done.
    rewrite query_pathway_by_name_no_limit. f_equal. apply take_ge. lia.
  - intros n m Hn Hm. rewrite !query_pathway_by_name_positive by lia.
    eexists _, _. split; [done|]. split; [done|].
    assert (Htake : take (Z.to_nat n) (name_matches self query)
                    = take (Z.to_nat n) (take (Z.to_nat m) (name_matches self query))).
    { rewrite take_take. f_equal. lia. }
    rewrite Htake. apply prefix_take.
Qed.

Lemma query_pathway_by_name_prefixes_witness :
  query_pathway_by_name example_manager (H := rejecting_backend) "PW" (Some 5%Z)
  = query_pathway_by_name example_manager (H := rejecting_backend) "PW" None.
Proof.
  apply (proj1 (proj2 (proj2
    (query_pathway_by_name_prefixes rejecting_backend example_manager "PW"))) 5%Z).
  - lia.
  - vm_compute. discriminate.
Defined.

(** ** Records against the exported gene sets *)

Lemma NoDup_fmap_eq {A B : Type} (f : A → B) (l : list A) (x y : A) :
  NoDup (f <$> l) → x ∈ l → y ∈ l → f x = f y → x = y.
Proof.
  induction l as [|a l IH]; intros Hnd Hx Hy Heq; [by apply elem_of_nil in Hx|].
  rewrite fmap_cons in Hnd. apply NoDup_cons in Hnd as [Ha Hnd].
  apply elem_of_cons in Hx as [->|Hx]; apply elem_of_cons in Hy as [->|Hy].
  - done.
  - exfalso. apply Ha. rewrite Heq. by apply list_elem_of_fmap_2.
  - exfalso. apply Ha. rewrite <- Heq. by apply list_elem_of_fmap_2.
  - by apply IH.
Qed.

(** X16: where no two pathway rows share a name, the operations agree on
    every record [query_gene_set] returns: [export_genesets] maps the
    record's pathway name to the record's gene set,
    [get_pathway_by_name] finds for that name the pathway
    [get_pathway_by_id] finds for the record's key, and an entry of
    [get_pathway_size_distribution] for that name is at least the
    record's [pathway_size]. *)
Theorem query_gene_set_agrees_with_export
    (self : CompathManager) (gene_set : list string)
    (r : gmap string EnrichmentRecord) (id : string) (rec : EnrichmentRecord) :
  NoDup (name <$> get_all_pathways self) →
  query_gene_set self gene_set = ret r →
  r !! id = Some rec →
  export_genesets self !! pathway_name rec = Some (pathway_gene_set rec)
  ∧ get_pathway_by_id self id = ret (get_pathway_by_name self (pathway_name rec))
  ∧ (∀ members,
       get_pathway_size_distribution self !! pathway_name rec = Some members →
       (pathway_size rec ≤ members)%nat).
Proof.
  intros Hnames Hrun Hrec.
  destruct (query_gene_set_lookup self _ _ _ _ Hrun Hrec) as (pathway & Hget & -> & _).
  destruct (get_pathway_by_id_Some self _ _ Hget) as [Hin _].
  assert (Huniq : ∀ other, other ∈ get_all_pathways self →
                    name other = name pathway → other = pathway).
  { intros other Hother Hname. by apply (NoDup_fmap_eq name (get_all_pathways self)). }
  simpl. split; [|split].
  - rewrite export_genesets_lookup. by rewrite (last_named_unique _ _ Hin Huniq).
  - rewrite Hget. f_equal. rewrite get_pathway_by_name_head.
    destruct (head (filter (λ other, name other = name pathway)
                      (get_all_pathways self))) as [first|] eqn:Hhead.
    + f_equal. apply head_Some_elem_of, list_elem_of_filter in Hhead as [Hn Hfirst].
      symmetry. by apply Huniq.
    + apply head_None in Hhead.
      by destruct (filter_nil_not_elem_of _ _ pathway Hhead).
  - intros members. rewrite get_pathway_size_distribution_lookup.
    destruct (last_named_nonempty (name pathway) (get_all_pathways self))
      as [counted|] eqn:Hcounted; [|discriminate].
    simpl. intros [= <-].
    destruct (last_filter_Some _ _ _ Hcounted) as [Hcin [Hname _]].
    rewrite (Huniq counted Hcin Hname).
    etrans; [apply size_list_to_set_le|]. by rewrite length_fmap.
Qed.

Lemma query_gene_set_agrees_with_export_witness :
  NoDup (name <$> get_all_pathways example_manager)
  ∧ export_genesets example_manager !! "PW1" = Some (get_gene_set PW1)
  ∧ get_pathway_by_id example_manager "1"
    = ret (get_pathway_by_name example_manager "PW1").
Proof.
  assert (Hnames : NoDup (name <$> get_all_pathways example_manager)) by by_compute.
  split; [exact Hnames|].
  destruct (query_gene_set_agrees_with_export example_manager ["TP53"]
              (<["1" := record_for "1" 1 PW1]> (<["2" := record_for "2" 1 PW2]> ∅))
              "1" (record_for "1" 1 PW1) Hnames)
    as (Hexport & Hlookup & _); [vm_compute; reflexivity..|].
  split; [exact Hexport|exact Hlookup].
Defined.

(** ** Mapped proteins against member rows *)

(** X17: on a store whose protein rows are pairwise different, where no
    protein lists a pathway identifier twice and the membership relation
    is consistent, every record [query_gene_set] returns has at most as
    many mapped proteins as the pathway found for its key has member
    rows, also when several member rows share a gene symbol. *)
Theorem mapped_proteins_le_member_rows
    (self : CompathManager) (gene_set : list string)
    (r : gmap string EnrichmentRecord) (id : string) (rec : EnrichmentRecord) :
  NoDup (session_query (session self) (self_protein_model self)) →
  pathways_ids_distinct self →
  membership_consistent self →
  query_gene_set self gene_set = ret r →
  r !! id = Some rec →
  ∃ pathway, get_pathway_by_id self id = ret (Some pathway)
             ∧ (mapped_proteins rec ≤ length (proteins pathway))%nat.
Proof.
  intros Hrows Hdistinct Hcons Hrun Hrec.
  destruct (query_gene_set_lookup self _ _ _ _ Hrun Hrec) as (pathway & Hget & -> & _).
  exists pathway. split; [done|]. simpl.
  apply get_pathway_by_id_Some in Hget as [Hrow Hfilter].
  rewrite pathway_counter_get, listings_are_rows by (by apply Forall_matched).
  apply submseteq_length, NoDup_submseteq.
  - eapply sublist_NoDup; [exact Hrows|].
    etrans; [apply sublist_filter|]. apply sublist_filter.
  - intros protein Hp. apply list_elem_of_filter in Hp as [Hid Hp].
    apply matched_in_table in Hp as [Hp _].
    unfold membership_consistent in Hcons.
    rewrite Forall_forall in Hcons. specialize (Hcons _ Hp).
    rewrite Forall_forall in Hcons. specialize (Hcons _ Hrow).
    rewrite Forall_forall in Hcons. by apply (Hcons id).
Qed.

Lemma mapped_proteins_le_member_rows_witness :
  NoDup (session_query (session (manager_on shared_symbol_store))
           (self_protein_model (manager_on shared_symbol_store)))
  ∧ ∃ pathway,
      get_pathway_by_id (manager_on shared_symbol_store) "1" = ret (Some pathway)
      ∧ (2 ≤ length (proteins pathway))%nat.
Proof.
  assert (Hrows : NoDup (session_query (session (manager_on shared_symbol_store))
                           (self_protein_model (manager_on shared_symbol_store))))
    by by_compute.
  split; [exact Hrows|].
  apply (mapped_proteins_le_member_rows (manager_on shared_symbol_store) ["TP53"]
           {["1" := {| pathway_id := "1"; pathway_name := "PW1"; mapped_proteins := 2;
                       pathway_size := 1; pathway_gene_set := {["TP53"]} |}]}
           "1"
           {| pathway_id := "1"; pathway_name := "PW1"; mapped_proteins := 2;
              pathway_size := 1; pathway_gene_set := {["TP53"]} |}
           Hrows).
  - by_compute.
  - by_compute.
  - vm_compute. reflexivity.
  - vm_compute. reflexivity.
Defined.

(** ** Exported gene sets against all gene symbols *)

(** X18: where no two pathway rows share a name, [export_genesets] loses
    no gene symbol: the symbols of [get_all_hgnc_symbols] are exactly
    those of the exported gene sets. *)
Theorem export_genesets_covers_all_symbols (self : CompathManager) (g : string) :
  NoDup (name <$> get_all_pathways self) →
  g ∈ get_all_hgnc_symbols self
  ↔ ∃ pathway_name genes,
      export_genesets self !! pathway_name = Some genes ∧ g ∈ genes.
Proof.
  intros Hnames. rewrite get_all_hgnc_symbols_elem. split.
  - intros (pathway & Hin & Hg).
    exists (name pathway), (list_to_set (member_symbols pathway)).
    split; [|by apply elem_of_list_to_set].
    rewrite export_genesets_lookup, (last_named_unique _ _ Hin); [done|].
    intros other Hother Hname.
    by apply (NoDup_fmap_eq name (get_all_pathways self)).
  - intros (pathway_name & genes & Hexport & Hg).
    rewrite export_genesets_lookup in Hexport.
    destruct (last_named pathway_name (get_all_pathways self)) as [pathway|] eqn:Hlast;
      [|discriminate].
    injection Hexport as <-. exists pathway.
    split; [by apply (last_filter_Some _ _ _ Hlast)|].
    by apply elem_of_list_to_set in Hg.
Qed.

Lemma export_genesets_covers_all_symbols_witness :
  NoDup (name <$> get_all_pathways example_manager)
  ∧ ∃ pathway_name genes,
      export_genesets example_manager !! pathway_name = Some genes ∧ "BRCA1" ∈ genes.
Proof.
  assert (Hnames : NoDup (name <$> get_all_pathways example_manager)) by by_compute.
  split; [exact Hnames|].
  apply (proj1 (export_genesets_covers_all_symbols example_manager "BRCA1" Hnames)).
  by_compute.
Defined.
